(** * Arm-crossing p-value simulation (streamlit-simulation.py)

    A shallow embedding of the Monte Carlo core of the script: the sampler
    [generate_sample], the two-sided p-value estimate and the progress
    fraction computed in [main], and the start/stop/reset run loop that
    Streamlit drives by re-running [main] once per tick.

    Python values are modelled as the interpreter has them: [int] is [Z],
    [float] is the kernel's binary64 [float] (the same IEEE 754 format and
    round-to-nearest-even operations as CPython's), [str] is [string], the
    [counts] dictionary is a [gmap string Z], and an exception is the
    [Raise] branch of [result]. *)

From Stdlib Require Import ZArith List Bool Lia Floats Uint63 Ascii.
From stdpp Require Import base gmap strings list pretty.
Import ListNotations.

Local Open Scope Z_scope.

(** ** Python runtime: exceptions, integers, floats *)

Inductive exn : Type :=
  | ZeroDivisionError
  | KeyError (key : string)
  | AttributeError (name : string).

Inductive result (A : Type) : Type :=
  | Ok (a : A)
  | Raise (e : exn).
Arguments Ok {A} a.
Arguments Raise {A} e.

(** [float(z)] for a Python int.  The conversion is exact for
    [|z| <= 2^53]; every integer this program converts is a count of at
    most 10000. *)
Definition float_of_int (z : Z) : float :=
  match z with
  | Zneg p => PrimFloat.opp (PrimFloat.of_uint63 (Uint63.of_Z (Zpos p)))
  | _ => PrimFloat.of_uint63 (Uint63.of_Z z)
  end.

(** [a / b] on two Python ints: true division, raising on a zero divisor.
    CPython rounds the exact quotient once; for operands that convert
    exactly that is the binary64 division of the converted operands. *)
Definition py_true_div (a b : Z) : result float :=
  if b =? 0 then Raise ZeroDivisionError
  else Ok (PrimFloat.div (float_of_int a) (float_of_int b)).

(** [a >= b] on floats (false as soon as one side is NaN). *)
Definition py_ge (a b : float) : bool := PrimFloat.leb b a.

(** [min(a, b)]: the builtin keeps its first argument unless the second
    compares strictly below it. *)
Definition py_min (a b : float) : float :=
  if PrimFloat.ltb b a then b else a.

(** [sum(xs)] over ints, starting from [0]; [True] and [False] count as
    [1] and [0]. *)
Definition py_sum (xs : list Z) : Z := fold_left Z.add xs 0.

Definition int_of_bool (b : bool) : Z := if b then 1 else 0.

(** ** The script's world: session state, random source, rendered page *)

(** [st.session_state]: a key that has not been set yet is [None]. *)
Record session : Type := Session {
  differences : option (list float);
  running : option bool
}.

(** The random source behind [np.random.choice]: the indices that
    successive calls on a two-element list pick ([false] is index 0,
    [true] is index 1), and how many of them have been consumed. *)
Record rng : Type := Rng {
  tape : nat -> bool;
  cursor : nat
}.

Definition next_index (g : rng) : nat :=
  if tape g (cursor g) then 1%nat else 0%nat.

Definition advance (n : nat) (g : rng) : rng :=
  Rng (tape g) (cursor g + n).

(** What one run of the script hands to the page. *)
Record figure : Type := Figure {
  hist_x : list float;
  nbinsx : Z;
  vlines : list float;
  vrects : list (float * float)
}.

(** Only the elements whose content the script computes are kept: the
    progress bar, the two metrics and the chart. *)
Inductive element : Type :=
  | Progress (value : float)
  | Metric (label value : string)
  | PlotlyChart (fig : figure).

Record world : Type := World {
  session_state : session;
  random : rng;
  page : list element
}.

(** A script fragment: it may read and write the world, and either
    returns a value or raises. *)
Definition script (A : Type) : Type := world -> result A * world.

Definition lift {A} (r : result A) : script A := fun w => (r, w).

#[global] Instance script_ret : MRet script :=
  fun A (a : A) w => (Ok a, w).

#[global] Instance script_bind : MBind script :=
  fun A B (k : A -> script B) (m : script A) w =>
    match m w with
    | (Ok a, w') => k a w'
    | (Raise e, w') => (Raise e, w')
    end.

(** [np.random.choice(options)] on a two-element list. *)
Definition np_random_choice (options : list string) : script string :=
  fun w =>
    (Ok (nth (next_index (random w)) options EmptyString),
     World (session_state w) (advance 1 (random w)) (page w)).

Definition render (e : element) : script unit :=
  fun w => (Ok tt, World (session_state w) (random w) (page w ++ [e])).

(** ** generate_sample *)

Abbreviation trial := (string * string)%type.

(** [for _ in range(n): ... samples.append([sex, arm])] *)
Fixpoint draw_trials (n : nat) (samples : list trial) : script (list trial) :=
  match n with
  | O => mret samples
  | S n' =>
      sex ← np_random_choice ["M"; "F"]%string;
      arm ← np_random_choice ["Sx"; "Dx"]%string;
      draw_trials n' (samples ++ [(sex, arm)])
  end.

(** The key [f'{sex}_{arm}']. *)
Definition key_of (t : trial) : string :=
  (fst t ++ "_" ++ snd t)%string.

(** [counts[k]]: subscripting raises [KeyError] on a missing key. *)
Definition getitem (counts : gmap string Z) (k : string) : result Z :=
  match counts !! k with
  | Some v => Ok v
  | None => Raise (KeyError k)
  end.

(** [counts[k] += 1] *)
Definition increment (counts : gmap string Z) (k : string)
  : result (gmap string Z) :=
  match getitem counts k with
  | Ok v => Ok (<[k := v + 1]> counts)
  | Raise e => Raise e
  end.

Definition initial_counts : gmap string Z :=
  {[ "M_Sx"%string := 0; "M_Dx"%string := 0;
     "F_Sx"%string := 0; "F_Dx"%string := 0 ]}.

(** [for sex, arm in samples: counts[f'{sex}_{arm}'] += 1] *)
Fixpoint count_frequencies (samples : list trial) (counts : gmap string Z)
  : result (gmap string Z) :=
  match samples with
  | [] => Ok counts
  | t :: rest =>
      match increment counts (key_of t) with
      | Ok counts' => count_frequencies rest counts'
      | Raise e => Raise e
      end
  end.

Definition sample_size : nat := 54.

Definition generate_sample : script float :=
  samples ← draw_trials sample_size [];
  counts ← lift (count_frequencies samples initial_counts);
  m_dx ← lift (getitem counts "M_Dx");
  m_sx ← lift (getitem counts "M_Sx");
  male_dx ← lift (py_true_div m_dx (m_dx + m_sx));
  f_dx ← lift (getitem counts "F_Dx");
  f_sx ← lift (getitem counts "F_Sx");
  female_dx ← lift (py_true_div f_dx (f_dx + f_sx));
  mret (PrimFloat.sub female_dx male_dx).

(** ** Formatting *)

Definition digit (d : Z) : string :=
  String (Ascii.ascii_of_nat (48 + Z.to_nat (d mod 10))) EmptyString.

(** Round the rational [num / den] ([den > 0]) to the nearest integer,
    ties to even: the rounding [format] applies to the exact value of a
    binary64 float. *)
Definition round_half_even (num den : Z) : Z :=
  let q := num / den in
  let r := num mod den in
  match 2 * r ?= den with
  | Lt => q
  | Gt => q + 1
  | Eq => if Z.even q then q else q + 1
  end.

(** [f"{x:.4f}"] *)
Definition format_4f (x : float) : string :=
  match Prim2SF x with
  | S754_nan => "nan"
  | S754_infinity s => if s then "-inf" else "inf"
  | S754_zero s => (if s then "-" else EmptyString) ++ "0.0000"
  | S754_finite s m e =>
      let n :=
        match e with
        | Zneg k => round_half_even (Zpos m * 10000) (2 ^ Zpos k)
        | _ => Zpos m * 2 ^ e * 10000
        end in
      (if s then "-" else EmptyString) ++ pretty (n / 10000) ++ "." ++
      digit (n / 1000) ++ digit (n / 100) ++ digit (n / 10) ++ digit n
  end%string.

(** ** create_histogram_figure *)

(** The histogram trace over [differences] with 40 bins, the two vertical
    lines at [observed_diff] and [-observed_diff], and the two shaded
    rectangles when [show_p_value_area] is set.  ([max_y] is computed by
    the script and never used; colours and layout are left out.) *)
Definition create_histogram_figure
    (differences : list float) (observed_diff : float)
    (show_p_value_area : bool) : figure :=
  Figure differences 40
    [observed_diff; PrimFloat.opp observed_diff]
    (if show_p_value_area
     then [(observed_diff, 1%float);
           (PrimFloat.opp 1%float, PrimFloat.opp observed_diff)]
     else []).

(** ** main *)

(** The widget values of one run: which button was clicked, the position
    picked in the select box ([None]: never touched), the check box. *)
Record widgets : Type := Widgets {
  start_stop_clicked : bool;
  reset_clicked : bool;
  target_choice : option nat;
  show_p_value_region : bool
}.

Definition target_options : list Z := [100; 500; 1000; 5000; 10000].

(** [st.selectbox(label, options, index)]: the option at the picked
    position, or at [index] while nothing valid has been picked. *)
Definition st_selectbox (options : list Z) (index : nat)
    (choice : option nat) : Z :=
  let i := match choice with
           | Some i => if (i <? length options)%nat then i else index
           | None => index
           end in
  nth i options 0.

Definition get_differences : script (list float) :=
  fun w => match differences (session_state w) with
           | Some ds => (Ok ds, w)
           | None => (Raise (AttributeError "differences"), w)
           end.

Definition get_running : script bool :=
  fun w => match running (session_state w) with
           | Some r => (Ok r, w)
           | None => (Raise (AttributeError "running"), w)
           end.

Definition set_differences (ds : list float) : script unit :=
  fun w => (Ok tt, World (Session (Some ds) (running (session_state w)))
                         (random w) (page w)).

Definition set_running (r : bool) : script unit :=
  fun w => (Ok tt, World (Session (differences (session_state w)) (Some r))
                         (random w) (page w)).

(** [if 'differences' not in st.session_state: ...] and the same for
    ['running']. *)
Definition initialize_session_state : script unit :=
  fun w =>
    let s := session_state w in
    (Ok tt,
     World (Session (Some (default [] (differences s)))
                    (Some (default false (running s))))
           (random w) (page w)).

(** [sum(abs(d) >= abs(observed_diff) for d in differences)
     / current_samples] *)
Definition p_value (differences : list float) (observed_diff : float)
    (current_samples : Z) : result float :=
  py_true_div
    (py_sum (map (fun d => int_of_bool
                    (py_ge (PrimFloat.abs d) (PrimFloat.abs observed_diff)))
                 differences))
    current_samples.

(** [min(1.0, current_samples / target_samples)] *)
Definition progress_value (current_samples target_samples : Z)
  : result float :=
  match py_true_div current_samples target_samples with
  | Ok q => Ok (py_min 1%float q)
  | Raise e => Raise e
  end.

(** [observed_diff = 0.06], as the interpreter reads the literal. *)
Definition observed : float := 0x1.eb851eb851eb8p-5%float.

(** One run of the script.  The value returned tells whether the run
    ended in [st.experimental_rerun()]. *)
Definition main (ui : widgets) : script bool :=
  initialize_session_state;;
  (if start_stop_clicked ui
   then r ← get_running; set_running (negb r)
   else mret tt);;
  (if reset_clicked ui
   then set_differences [];; set_running false
   else mret tt);;
  let target_samples := st_selectbox target_options 2 (target_choice ui) in
  let show_p_value := show_p_value_region ui in
  ds ← get_differences;
  let current_samples := Z.of_nat (length ds) in
  fraction ← lift (progress_value current_samples target_samples);
  render (Progress fraction);;
  render (Metric "Samples"
            (pretty current_samples ++ " / " ++ pretty target_samples));;
  (if 0 <? current_samples
   then
     let observed_diff := observed in
     ds ← get_differences;
     p ← lift (p_value ds observed_diff current_samples);
     render (Metric "P-value" (format_4f p))
   else mret tt);;
  ds ← get_differences;
  render (PlotlyChart (create_histogram_figure ds observed show_p_value));;
  r ← get_running;
  if r && (current_samples <? target_samples)
  then
    v ← generate_sample;
    ds ← get_differences;
    set_differences (ds ++ [v]);;
    mret true
  else mret false.

(** A scheduling tick: Streamlit runs the script from the top on a fresh
    page, against the session state and random source the previous run
    left behind. *)
Definition tick (ui : widgets) (w : world) : result bool * world :=
  main ui (World (session_state w) (random w) []).

Definition fresh (g : rng) : world := World (Session None None) g [].

(** The worlds a session can be in: the fresh one, and whatever a tick
    leaves, whether the run returned or raised. *)
Inductive reachable : world -> Prop :=
  | reachable_fresh g : reachable (fresh g)
  | reachable_tick ui w : reachable w -> reachable (snd (tick ui w)).

(** ** Specification-side vocabulary *)

Definition pick (options : list string) (b : bool) : string :=
  nth (if b then 1 else 0)%nat options EmptyString.

(** The trials that [n] rounds of the drawing loop read off tape [t] from
    position [c] on: two consecutive draws per trial, the first for the
    sex and the second for the arm. *)
Fixpoint trials_from (t : nat -> bool) (c n : nat) : list trial :=
  match n with
  | O => []
  | S n' =>
      (pick ["M"; "F"]%string (t c), pick ["Sx"; "Dx"]%string (t (S c)))
      :: trials_from t (S (S c)) n'
  end.

(** The Sample Batch a call of [generate_sample] draws from [g]. *)
Definition batch (g : rng) : list trial :=
  trials_from (tape g) (cursor g) sample_size.

(** Number of trials of [samples] with the given sex and arm. *)
Definition count (sex arm : string) (samples : list trial) : Z :=
  Z.of_nat (length (filter (λ t, t = (sex, arm)) samples)).

(** Number of trials of [samples] in the group [sex]. *)
Definition group_size (sex : string) (samples : list trial) : Z :=
  Z.of_nat (length (filter (λ t, t.1 = sex) samples)).

(** The statistic in the spec's words: [p1] and [p2] are the proportions
    of value B within group 1 and group 2, the result is [p2 - p1], and a
    group with no trial is a division by zero. *)
Definition proportion_difference (g1A g1B g2A g2B : Z) : result float :=
  match py_true_div g1B (g1B + g1A) with
  | Raise e => Raise e
  | Ok p1 =>
      match py_true_div g2B (g2B + g2A) with
      | Raise e => Raise e
      | Ok p2 => Ok (PrimFloat.sub p2 p1)
      end
  end.

Definition counts_map (m_sx m_dx f_sx f_dx : Z) : gmap string Z :=
  {[ "M_Sx"%string := m_sx; "M_Dx"%string := m_dx;
     "F_Sx"%string := f_sx; "F_Dx"%string := f_dx ]}.

Definition valid_trial (t : trial) : Prop :=
  (t.1 = "M" ∨ t.1 = "F")%string ∧ (t.2 = "Sx" ∨ t.2 = "Dx")%string.

(** A tape that spells out the given trials from position [c] on. *)
Definition tape_of (target : list trial) (c : nat) : nat -> bool :=
  fun i =>
    let t := nth ((i - c) / 2) target (EmptyString, EmptyString) in
    if Nat.even (i - c) then bool_decide (t.1 = "F"%string)
    else bool_decide (t.2 = "Dx"%string).

(** Sample worlds: a tape on which both sexes and both arms occur, and
    a tape of index 0 only, on which every trial is a male one. *)
Definition mixed_tape : nat -> bool := fun i => Nat.even (i / 3).

Definition all_male_tape : nat -> bool := fun _ => false.

(** ** The statistic, checked over every frequency table *)

Definition range (n : nat) : list Z := map Z.of_nat (seq 0 n).

(** A statistic that was returned, is a finite float and lies in [-1, 1]. *)
Definition statistic_in_range (r : result float) : bool :=
  match r with
  | Ok v =>
      PrimFloat.leb (-1)%float v && PrimFloat.leb v 1%float &&
      PrimFloat.is_finite v
  | Raise _ => false
  end.

(** Every frequency table of [n] trials in which both groups occur has
    such a statistic. *)
Definition tables_checked (n : nat) : bool :=
  forallb (fun m_sx => forallb (fun m_dx => forallb (fun f_sx =>
    let f_dx := Z.of_nat n - m_sx - m_dx - f_sx in
    (f_dx <? 0) || (m_sx + m_dx =? 0) || (f_sx + f_dx =? 0) ||
    statistic_in_range (proportion_difference m_sx m_dx f_sx f_dx))
    (range (S n))) (range (S n))) (range (S n)).

(** [k / n] as the interpreter computes it on two ints ([n] non-zero). *)
Definition ratio (k n : Z) : float :=
  PrimFloat.div (float_of_int k) (float_of_int n).

(** *** The binary64 quotient of two exactly converted integers *)

(** Mantissa and exponent of the float that holds [z] exactly: the
    mantissa has 53 bits. *)
Definition mantissa (z : Z) : Z := z * 2 ^ (53 - Zdigits2 z).
Definition exponent (z : Z) : Z := Zdigits2 z - 53.

(** The float of mantissa [N] in [2^52, 2^53] at exponent [e]; a mantissa
    rounded up to [2^53] moves to the next exponent. *)
Definition finish (N e : Z) : spec_float :=
  if N =? 2 ^ 53 then S754_finite false 4503599627370496 (e + 1)
  else S754_finite false (Z.to_pos N) e.

(** The quotient of two positive floats with 53-bit mantissas, rounded
    to nearest, ties to even. *)
Definition quotient (mx ex my ey : Z) : spec_float :=
  if mx <? my
  then finish (round_half_even (mx * 2 ^ 53) my) (ex - ey - 53)
  else finish (round_half_even (mx * 2 ^ 53) (2 * my)) (ex - ey - 52).

(** Below [2^53] every integer is a float: [float(z)] is exact, and so
    [a / b] on two such ints is the binary64 quotient of the two floats. *)
Definition exact_bound : Z := 2 ^ 53.

(** The two-sided tail of the spec: [abs(d) >= abs(observed)]. *)
Definition at_least_as_extreme (observed d : float) : Prop :=
  py_ge (PrimFloat.abs d) (PrimFloat.abs observed) = true.

#[global] Instance at_least_as_extreme_dec observed d :
  Decision (at_least_as_extreme observed d) :=
  bool_eq_dec _ _.

(** How many of the values are at least as extreme as [observed]. *)
Definition extreme_count (values : list float) (observed : float) : Z :=
  Z.of_nat (length (filter (at_least_as_extreme observed) values)).

(** The largest target the select box offers: no run appends beyond it
    (and it is far below [exact_bound]). *)
Definition max_target : Z := 10000.

(** The statistic of the batch that [generate_sample] draws from [g]. *)
Definition statistic_of (g : rng) : result float :=
  let b := batch g in
  proportion_difference (count "M" "Sx" b) (count "M" "Dx" b)
                        (count "F" "Sx" b) (count "F" "Dx" b).

(** The session after the initialisation and the two buttons of a run:
    the accumulated differences and the running flag. *)
Definition after_buttons (ui : widgets) (s : session) : list float * bool :=
  let ds := default [] (differences s) in
  let r := default false (running s) in
  let r := if start_stop_clicked ui then negb r else r in
  if reset_clicked ui then ([], false) else (ds, r).

Definition target_of (ui : widgets) : Z :=
  st_selectbox target_options 2 (target_choice ui).

(** What a run renders over [ds]: the progress bar, the sample counter,
    the p-value (only over a non-empty [ds]) and the chart. *)
Definition rendered (ui : widgets) (ds : list float) : list element :=
  let current := Z.of_nat (length ds) in
  [Progress (py_min 1%float (ratio current (target_of ui)));
   Metric "Samples" (pretty current ++ " / " ++ pretty (target_of ui))] ++
  (if 0 <? current
   then [Metric "P-value"
           (format_4f (ratio (extreme_count ds observed) current))]
   else []) ++
  [PlotlyChart (create_histogram_figure ds observed (show_p_value_region ui))].

(** The accumulated differences of a world ([[]] before the first run). *)
Definition accumulated (w : world) : list float :=
  default [] (differences (session_state w)).

Definition is_running (w : world) : bool :=
  default false (running (session_state w)).

(** A float that is NaN or carries a plus sign. *)
Definition unsigned_or_nan (s : spec_float) : bool :=
  match s with
  | S754_nan => true
  | S754_zero b | S754_infinity b | S754_finite b _ _ => negb b
  end.

Definition is_digit (c : Ascii.ascii) : bool :=
  (48 <=? Ascii.nat_of_ascii c)%nat && (Ascii.nat_of_ascii c <=? 57)%nat.

(** The string ends in a point followed by exactly four digits. *)
Definition four_decimals (s : string) : Prop :=
  exists whole d1 d2 d3 d4,
    s = (whole +:+ String "."%char (String d1 (String d2 (String d3
                     (String d4 EmptyString)))))%string /\
    is_digit d1 = true /\ is_digit d2 = true /\
    is_digit d3 = true /\ is_digit d4 = true.

(** The worlds reachable by ticks that all run with the target [T]. *)
Inductive reachable_at (T : Z) : world -> Prop :=
  | reachable_at_fresh g : reachable_at T (fresh g)
  | reachable_at_tick ui w :
      reachable_at T w -> target_of ui = T ->
      reachable_at T (snd (tick ui w)).

(** Sample runs: the Start button, a rerun with no button, Reset. *)
Definition ui_start : widgets := Widgets true false None true.
Definition ui_rerun : widgets := Widgets false false None true.
Definition ui_reset : widgets := Widgets false true (Some 0%nat) true.

(** The world one tick after Start was clicked in a fresh session. *)
Definition world_started : world :=
  snd (tick ui_start (fresh (Rng mixed_tape 0))).

(** ** Vocabulary for further properties of the script *)

#[global] Instance valid_trial_dec (t : trial) : Decision (valid_trial t).
Proof. unfold valid_trial. apply _. Defined.

(** [mixed_tape] with its first two trials exchanged. *)
Definition swapped_tape : nat -> bool :=
  fun i => match i with
           | 0%nat => mixed_tape 2
           | 1%nat => mixed_tape 3
           | 2%nat => mixed_tape 0
           | 3%nat => mixed_tape 1
           | _ => mixed_tape i
           end.

(** The tape on which every sex draw of the batch that starts at [c] is
    flipped: the same trials with "M" and "F" exchanged. *)
Definition flip_sexes (t : nat -> bool) (c : nat) : nat -> bool :=
  fun i => if Nat.even (i - c) then negb (t i) else t i.

Definition swap_sex (tr : trial) : trial :=
  (if decide (tr.1 = "M"%string) then "F"%string else "M"%string, tr.2).

(** On every frequency table of [n] trials, exchanging the two groups
    negates the statistic, or raises as before. *)
Definition tables_antisymmetric (n : nat) : bool :=
  forallb (fun m_sx => forallb (fun m_dx => forallb (fun f_sx =>
    let f_dx := Z.of_nat n - m_sx - m_dx - f_sx in
    (f_dx <? 0) ||
    match proportion_difference m_sx m_dx f_sx f_dx,
          proportion_difference f_sx f_dx m_sx m_dx with
    | Ok v, Ok v' => PrimFloat.eqb v' (PrimFloat.opp v)
    | Raise _, Raise _ => true
    | _, _ => false
    end)
    (range (S n))) (range (S n))) (range (S n)).

(** The widget values of the run that [st.experimental_rerun()] starts:
    the select box and the check box keep their values, and no button
    reads as clicked. *)
Definition unclicked (ui : widgets) : widgets :=
  Widgets false false (target_choice ui) (show_p_value_region ui).

(** The runs that one interaction sets off: the run itself and, each
    time a run ends in [st.experimental_rerun()], one more.  [fuel]
    bounds the number of runs; the outcome is that of the last one. *)
Fixpoint interact (fuel : nat) (ui : widgets) (w : world)
  : option (result bool * world) :=
  match fuel with
  | O => None
  | S fuel' =>
      match tick ui w with
      | (Ok true, w') => interact fuel' (unclicked ui) w'
      | outcome => Some outcome
      end
  end.

(** Whether [x] lies in the rectangle that [add_vrect(x0, x1)] shades. *)
Definition in_rect (r : float * float) (x : float) : bool :=
  PrimFloat.leb r.1 x && PrimFloat.leb x r.2.

(** Whether the figure shades the position [x]. *)
Definition shaded (fig : figure) (x : float) : bool :=
  existsb (fun r => in_rect r x) (vrects fig).

(** * Properties *)

(** ** The drawing loop *)

Lemma pick_sex b : pick ["M"; "F"]%string b = if b then "F"%string else "M"%string.
Proof. by destruct b. Qed.

Lemma pick_arm b : pick ["Sx"; "Dx"]%string b = if b then "Dx"%string else "Sx"%string.
Proof. by destruct b. Qed.

Lemma draw_trials_spec n : forall acc w,
  draw_trials n acc w =
  (Ok (acc ++ trials_from (tape (random w)) (cursor (random w)) n),
   World (session_state w) (advance (2 * n) (random w)) (page w)).
Proof.
  induction n as [|n IH]; intros acc w.
  - destruct w as [s [t c] pg]. cbn. rewrite app_nil_r.
    unfold advance. cbn. by rewrite Nat.add_0_r.
  - cbn [draw_trials]. unfold mbind, script_bind, np_random_choice.
    cbn [random session_state page]. rewrite IH.
    destruct w as [s [t c] pg]. cbn. rewrite <- app_assoc. cbn.
    unfold advance, next_index, pick. cbn.
    replace (c + 1 + 1)%nat with (S (S c)) by lia.
    replace (c + 1)%nat with (S c) by lia.
    replace (S (S c) + (n + (n + 0)))%nat with (c + S (n + S (n + 0)))%nat by lia.
    reflexivity.
Qed.

Lemma trials_from_length t n : forall c, length (trials_from t c n) = n.
Proof. induction n; intros c; cbn; [done|]. by rewrite IHn. Qed.

Lemma trials_from_lookup t n : forall c i, (i < n)%nat ->
  trials_from t c n !! i =
  Some (pick ["M"; "F"]%string (t (c + 2 * i)%nat),
        pick ["Sx"; "Dx"]%string (t (c + 2 * i + 1)%nat)).
Proof.
  induction n as [|n IH]; intros c i Hi; [lia|].
  destruct i as [|i]; cbn [trials_from lookup list_lookup].
  - rewrite Nat.mul_0_r, Nat.add_0_r, Nat.add_1_r. reflexivity.
  - rewrite IH by lia.
    replace (S (S c) + 2 * i)%nat with (c + 2 * S i)%nat by lia.
    reflexivity.
Qed.

Lemma trials_from_valid t n : forall c, Forall valid_trial (trials_from t c n).
Proof.
  induction n as [|n IH]; intros c; cbn [trials_from]; constructor; [|done].
  rewrite pick_sex, pick_arm. split; cbn; [destruct (t c)|destruct (t (S c))]; auto.
Qed.

(** ** The frequency table *)

Lemma count_cons sex arm t samples :
  count sex arm (t :: samples) =
  (if decide (t = (sex, arm)) then 1 else 0) + count sex arm samples.
Proof.
  unfold count. rewrite filter_cons.
  repeat case_decide; try done; rewrite ?length_cons; lia.
Qed.

Lemma group_size_cons sex t samples :
  group_size sex (t :: samples) =
  (if decide (t.1 = sex) then 1 else 0) + group_size sex samples.
Proof.
  unfold group_size. rewrite filter_cons.
  repeat case_decide; try done; rewrite ?length_cons; lia.
Qed.

Lemma count_nonneg sex arm samples : 0 <= count sex arm samples.
Proof. unfold count. lia. Qed.

Lemma increment_counts_map a b c d t :
  valid_trial t ->
  increment (counts_map a b c d) (key_of t) =
  Ok (counts_map (a + count "M" "Sx" [t]) (b + count "M" "Dx" [t])
                 (c + count "F" "Sx" [t]) (d + count "F" "Dx" [t])).
Proof.
  destruct t as [sex arm]. unfold valid_trial. cbn [fst snd].
  intros [[-> | ->] [-> | ->]].
  all: unfold increment, getitem, counts_map, key_of; cbn.
  all: simplify_map_eq.
  all: f_equal; apply map_eq; intros k.
  all: rewrite !count_cons; repeat case_decide; try congruence.
  all: unfold count; cbn.
  all: rewrite ?Z.add_0_r.
  all: repeat (rewrite lookup_insert; case_decide); try congruence; try reflexivity.
  all: cbn in *; simplify_eq; try done.
  all: rewrite ?lookup_singleton_eq, ?lookup_singleton_ne by done; done.
Qed.

Lemma count_frequencies_spec samples :
  Forall valid_trial samples -> forall a b c d,
  count_frequencies samples (counts_map a b c d) =
  Ok (counts_map (a + count "M" "Sx" samples) (b + count "M" "Dx" samples)
                 (c + count "F" "Sx" samples) (d + count "F" "Dx" samples)).
Proof.
  induction 1 as [|t samples Ht _ IH]; intros a b c d.
  - cbn. unfold count. cbn. by rewrite !Z.add_0_r.
  - cbn [count_frequencies]. rewrite increment_counts_map by done.
    rewrite IH. f_equal.
    rewrite !(count_cons _ _ t samples), !(count_cons _ _ t []).
    change (count _ _ []) with 0. f_equal; lia.
Qed.

Lemma group_size_count sex samples :
  Forall valid_trial samples ->
  group_size sex samples = count sex "Sx" samples + count sex "Dx" samples.
Proof.
  induction 1 as [|[s a] samples [_ Ha] _ IH].
  - reflexivity.
  - rewrite group_size_cons, !count_cons, IH. cbn in Ha |- *.
    destruct Ha as [-> | ->]; repeat case_decide; simplify_eq; lia.
Qed.

Lemma getitem_counts_map a b c d :
  getitem (counts_map a b c d) "M_Sx" = Ok a /\
  getitem (counts_map a b c d) "M_Dx" = Ok b /\
  getitem (counts_map a b c d) "F_Sx" = Ok c /\
  getitem (counts_map a b c d) "F_Dx" = Ok d.
Proof. unfold getitem, counts_map. by simplify_map_eq. Qed.

(** The sampler in closed form: the statistic of the batch on the tape,
    and a random source moved on by two draws per trial. *)
Lemma generate_sample_spec w :
  generate_sample w =
  (let b := batch (random w) in
   proportion_difference (count "M" "Sx" b) (count "M" "Dx" b)
                         (count "F" "Sx" b) (count "F" "Dx" b),
   World (session_state w) (advance (2 * sample_size) (random w)) (page w)).
Proof.
  unfold generate_sample, mbind, script_bind, lift, mret, script_ret.
  rewrite draw_trials_spec. cbn [app].
  change initial_counts with (counts_map 0 0 0 0).
  rewrite count_frequencies_spec by apply trials_from_valid.
  fold (batch (random w)). cbn zeta. rewrite !Z.add_0_l.
  destruct (getitem_counts_map (count "M" "Sx" (batch (random w)))
              (count "M" "Dx" (batch (random w)))
              (count "F" "Sx" (batch (random w)))
              (count "F" "Dx" (batch (random w)))) as (-> & -> & -> & ->).
  unfold proportion_difference.
  destruct (py_true_div (count "M" "Dx" _) _); [|reflexivity].
  destruct (py_true_div (count "F" "Dx" _) _); reflexivity.
Qed.

(** ** Binary64 comparisons *)

Section FloatOrder.

Local Open Scope float_scope.

Lemma SFleb_trans x y z :
  SFleb x y = true -> SFleb y z = true -> SFleb x z = true.
Proof.
  unfold SFleb, SFcompare.
  destruct x as [[]|[]| |[] mx ex], y as [[]|[]| |[] my ey],
           z as [[]|[]| |[] mz ez];
    try (intros; reflexivity || discriminate).
  all: change (Pos.compare_cont Eq) with Pos.compare.
  all: destruct (Z.compare_spec ex ey), (Z.compare_spec ey ez),
         (Z.compare_spec ex ez); try lia; try (intros; reflexivity || discriminate).
  all: destruct (Pos.compare_spec mx my), (Pos.compare_spec my mz),
         (Pos.compare_spec mx mz); try lia;
         try (cbn; intros; reflexivity || discriminate).
Qed.

Lemma leb_trans x y z :
  (x <=? y) = true -> (y <=? z) = true -> (x <=? z) = true.
Proof. rewrite !FloatAxioms.leb_spec. apply SFleb_trans. Qed.

Lemma SFcompare_refl s : s <> S754_nan -> SFcompare s s = Some Eq.
Proof.
  destruct s as [[]|[]| |[] m e]; intros H; try reflexivity; try congruence.
  all: cbn; rewrite Z.compare_refl.
  all: change (Pos.compare_cont Eq) with Pos.compare.
  all: by rewrite Pos.compare_refl.
Qed.

Lemma is_nan_spec x : is_nan x = false <-> Prim2SF x <> S754_nan.
Proof.
  unfold is_nan. rewrite FloatAxioms.eqb_spec. unfold SFeqb. split.
  - intros H E. rewrite E in H. discriminate.
  - intros H. by rewrite SFcompare_refl.
Qed.

Lemma leb_refl x : is_nan x = false -> (x <=? x) = true.
Proof.
  intros H%is_nan_spec. rewrite FloatAxioms.leb_spec. unfold SFleb.
  by rewrite SFcompare_refl.
Qed.

Lemma leb_not_nan_l x y : (x <=? y) = true -> is_nan x = false.
Proof.
  rewrite FloatAxioms.leb_spec. intros H. apply is_nan_spec. intros E.
  rewrite E in H. discriminate.
Qed.

Lemma leb_not_nan_r x y : (x <=? y) = true -> is_nan y = false.
Proof.
  rewrite FloatAxioms.leb_spec. intros H. apply is_nan_spec. intros E.
  rewrite E in H. by destruct (Prim2SF x) as [[]|[]| |[] m e].
Qed.

(** [abs(v) >= 0] holds of every float but NaN. *)
Lemma abs_nonneg x : is_nan x = false -> (0 <=? abs x) = true.
Proof.
  intros H%is_nan_spec. rewrite FloatAxioms.leb_spec, abs_spec.
  change (Prim2SF 0) with (S754_zero false).
  by destruct (Prim2SF x) as [[]|[]| |[] m e].
Qed.

Lemma ltb_leb x y : (x <? y) = true -> (x <=? y) = true.
Proof.
  rewrite FloatAxioms.ltb_spec, FloatAxioms.leb_spec. unfold SFltb, SFleb.
  by destruct (SFcompare _ _) as [[]|].
Qed.

End FloatOrder.

(** ** The statistic of every frequency table *)

Lemma tables_checked_54 : tables_checked sample_size = true.
Proof. vm_compute. reflexivity. Qed.

Lemma in_range n z : 0 <= z < Z.of_nat n -> In z (range n).
Proof.
  intros H. unfold range. apply in_map_iff. exists (Z.to_nat z).
  split; [lia|]. apply in_seq. lia.
Qed.

Lemma tables_checked_spec n m_sx m_dx f_sx f_dx :
  tables_checked n = true ->
  0 <= m_sx -> 0 <= m_dx -> 0 <= f_sx -> 0 <= f_dx ->
  m_sx + m_dx + f_sx + f_dx = Z.of_nat n ->
  m_sx + m_dx <> 0 -> f_sx + f_dx <> 0 ->
  statistic_in_range (proportion_difference m_sx m_dx f_sx f_dx) = true.
Proof.
  intros H Ha Hb Hc Hd Hsum Hm Hf. unfold tables_checked in H.
  assert (Hn : Z.of_nat (S n) = Z.of_nat n + 1) by apply Nat2Z.inj_succ.
  rewrite forallb_forall in H. specialize (H m_sx (in_range (S n) m_sx ltac:(lia))).
  rewrite forallb_forall in H. specialize (H m_dx (in_range (S n) m_dx ltac:(lia))).
  rewrite forallb_forall in H. specialize (H f_sx (in_range (S n) f_sx ltac:(lia))).
  cbv zeta in H.
  replace (Z.of_nat n - m_sx - m_dx - f_sx) with f_dx in H by lia.
  rewrite !orb_true_iff in H. destruct H as [[[H|H]|H]|H]; [lia..|exact H].
Qed.

Lemma statistic_of_table m_sx m_dx f_sx f_dx :
  0 <= m_sx -> 0 <= m_dx -> 0 <= f_sx -> 0 <= f_dx ->
  m_sx + m_dx + f_sx + f_dx = Z.of_nat sample_size ->
  m_sx + m_dx <> 0 -> f_sx + f_dx <> 0 ->
  statistic_in_range (proportion_difference m_sx m_dx f_sx f_dx) = true.
Proof. apply tables_checked_spec, tables_checked_54. Qed.

Lemma counts_total samples :
  Forall valid_trial samples ->
  count "M" "Sx" samples + count "M" "Dx" samples +
  count "F" "Sx" samples + count "F" "Dx" samples =
  Z.of_nat (length samples).
Proof.
  induction 1 as [|[s a] samples [Hs Ha] _ IH]; [reflexivity|].
  rewrite !count_cons, length_cons, Nat2Z.inj_succ, <- IH.
  cbn in Hs, Ha.
  destruct Hs as [-> | ->], Ha as [-> | ->];
    repeat case_decide; simplify_eq; lia.
Qed.

Lemma batch_valid g : Forall valid_trial (batch g).
Proof. apply trials_from_valid. Qed.

Lemma batch_length g : length (batch g) = sample_size.
Proof. apply trials_from_length. Qed.

(** The outcome of the sampler, by cases on the two group sizes. *)
Lemma generate_sample_cases w :
  let b := batch (random w) in
  (group_size "M" b = 0 \/ group_size "F" b = 0) /\
    fst (generate_sample w) = Raise ZeroDivisionError
  \/
  (0 < group_size "M" b /\ 0 < group_size "F" b) /\
    exists v, fst (generate_sample w) = Ok v /\
              statistic_in_range (Ok v) = true.
Proof.
  intros b. rewrite generate_sample_spec. cbn [fst]. fold b.
  pose proof (batch_valid (random w)) as Hv. fold b in Hv.
  pose proof (counts_total b Hv) as Hsum.
  rewrite (batch_length (random w) : length b = sample_size) in Hsum.
  rewrite !(group_size_count _ b Hv).
  pose proof (count_nonneg "M" "Sx" b). pose proof (count_nonneg "M" "Dx" b).
  pose proof (count_nonneg "F" "Sx" b). pose proof (count_nonneg "F" "Dx" b).
  destruct (decide (count "M" "Sx" b + count "M" "Dx" b = 0)) as [Hm|Hm].
  { left. split; [by left|]. unfold proportion_difference, py_true_div.
    replace (count "M" "Dx" b + count "M" "Sx" b) with 0 by lia.
    reflexivity. }
  destruct (decide (count "F" "Sx" b + count "F" "Dx" b = 0)) as [Hf|Hf].
  { left. split; [by right|]. unfold proportion_difference, py_true_div.
    replace (count "F" "Dx" b + count "F" "Sx" b) with 0 by lia.
    destruct (_ =? 0); reflexivity. }
  right. split; [lia|].
  pose proof (statistic_of_table (count "M" "Sx" b) (count "M" "Dx" b)
                (count "F" "Sx" b) (count "F" "Dx" b)
                ltac:(done) ltac:(done) ltac:(done) ltac:(done) Hsum Hm Hf)
    as Hr.
  destruct (proportion_difference _ _ _ _) as [v|e]; [|discriminate].
  by exists v.
Qed.

(** ** Trials and draws correspond one to one *)

Lemma pick_sex_inj b1 b2 :
  pick ["M"; "F"]%string b1 = pick ["M"; "F"]%string b2 -> b1 = b2.
Proof. by destruct b1, b2. Qed.

Lemma pick_arm_inj b1 b2 :
  pick ["Sx"; "Dx"]%string b1 = pick ["Sx"; "Dx"]%string b2 -> b1 = b2.
Proof. by destruct b1, b2. Qed.

Lemma trials_from_inj t1 t2 c n :
  trials_from t1 c n = trials_from t2 c n ->
  forall i, (i < 2 * n)%nat -> t1 (c + i)%nat = t2 (c + i)%nat.
Proof.
  intros E i Hi.
  assert (Hj : (i / 2 < n)%nat) by (apply Nat.Div0.div_lt_upper_bound; lia).
  pose proof (trials_from_lookup t1 n c _ Hj) as H1.
  pose proof (trials_from_lookup t2 n c _ Hj) as H2.
  rewrite E, H2 in H1. injection H1 as Hs Ha.
  apply pick_sex_inj in Hs. apply pick_arm_inj in Ha.
  pose proof (Nat.div_mod_eq i 2) as Hdm.
  pose proof (Nat.mod_upper_bound i 2 ltac:(lia)) as Hlt.
  destruct (decide (i mod 2 = 0)%nat) as [H0|H0].
  - replace (c + i)%nat with (c + 2 * (i / 2))%nat by lia. done.
  - replace (c + i)%nat with (c + 2 * (i / 2) + 1)%nat by lia. done.
Qed.

Lemma trials_from_tape_of target c :
  Forall valid_trial target ->
  trials_from (tape_of target c) c (length target) = target.
Proof.
  intros Hv. apply list_eq. intros i.
  destruct (decide (i < length target)%nat) as [Hi|Hi].
  - rewrite trials_from_lookup by done.
    destruct (lookup_lt_is_Some_2 target i Hi) as [[s a] Ht].
    rewrite Ht. f_equal.
    pose proof (proj1 (Forall_lookup _ _) Hv i _ Ht) as [Hs Ha].
    unfold tape_of.
    replace (c + 2 * i - c)%nat with (2 * i)%nat by lia.
    replace (c + 2 * i + 1 - c)%nat with (2 * i + 1)%nat by lia.
    replace (Nat.even (2 * i)) with true
      by (symmetry; rewrite Nat.even_mul; reflexivity).
    replace (Nat.even (2 * i + 1)) with false
      by (symmetry; rewrite (Nat.add_comm (2 * i) 1), Nat.even_add_mul_2;
          reflexivity).
    replace ((2 * i) / 2)%nat with i
      by (symmetry; rewrite Nat.mul_comm; apply Nat.div_mul; lia).
    replace ((2 * i + 1) / 2)%nat with i
      by (apply (Nat.div_unique _ 2 i 1); lia).
    rewrite (nth_lookup_Some _ _ _ _ Ht). cbn in Hs, Ha |- *.
    destruct Hs as [-> | ->], Ha as [-> | ->]; reflexivity.
  - rewrite !lookup_ge_None_2; [done|lia|rewrite trials_from_length; lia].
Qed.

(** ** Quotients of counts: [k / n] in binary64 *)

Lemma float_of_int_nonneg z :
  0 <= z -> float_of_int z = PrimFloat.of_uint63 (Uint63.of_Z z).
Proof. destruct z; [done|done|lia]. Qed.

Lemma digits2_pos_bounds p :
  2 ^ (Zpos (digits2_pos p) - 1) <= Zpos p < 2 ^ Zpos (digits2_pos p).
Proof.
  induction p as [p IH|p IH|]; cbn [digits2_pos].
  - rewrite Pos2Z.inj_succ, Z.pow_succ_r by lia.
    replace (Z.succ (Zpos (digits2_pos p)) - 1) with (Z.succ (Zpos (digits2_pos p) - 1)) by lia.
    rewrite Z.pow_succ_r by lia. lia.
  - rewrite Pos2Z.inj_succ, Z.pow_succ_r by lia.
    replace (Z.succ (Zpos (digits2_pos p)) - 1) with (Z.succ (Zpos (digits2_pos p) - 1)) by lia.
    rewrite Z.pow_succ_r by lia. lia.
  - cbn. lia.
Qed.

Lemma digits2_pos_unique p d :
  2 ^ (d - 1) <= Zpos p < 2 ^ d -> Zpos (digits2_pos p) = d.
Proof.
  intros [Hl Hu]. pose proof (digits2_pos_bounds p) as [Bl Bu].
  assert (0 < d). { destruct (Z_lt_le_dec 0 d); [done|]. 
    assert (2 ^ d <= 2 ^ 0) by (destruct (Z_lt_le_dec d 0); [rewrite Z.pow_neg_r by lia; cbn; lia| apply Z.pow_le_mono_r; lia]).
    cbn in *. lia. }
  destruct (Z_lt_le_dec (Zpos (digits2_pos p)) d) as [H1|H1].
  - assert (2 ^ Zpos (digits2_pos p) <= 2 ^ (d - 1)) by (apply Z.pow_le_mono_r; lia). lia.
  - destruct (Z_lt_le_dec d (Zpos (digits2_pos p))) as [H2|H2]; [|lia].
    assert (2 ^ d <= 2 ^ (Zpos (digits2_pos p) - 1)) by (apply Z.pow_le_mono_r; lia). lia.
Qed.

Lemma rhe_bounds num den :
  0 < den -> num / den <= round_half_even num den <= num / den + 1.
Proof.
  intros Hd. unfold round_half_even.
  destruct (2 * (num mod den) ?= den); [destruct (Z.even _)|..]; lia.
Qed.

Lemma rhe_mono den a b :
  0 < den -> a <= b -> round_half_even a den <= round_half_even b den.
Proof.
  intros Hd Hab.
  pose proof (Z.div_le_mono a b den Hd Hab) as Hq.
  destruct (Z.eq_dec (a / den) (b / den)) as [E|NE].
  - unfold round_half_even. rewrite <- E.
    pose proof (Z.div_mod a den ltac:(lia)). pose proof (Z.div_mod b den ltac:(lia)).
    assert (a mod den <= b mod den) by nia.
    destruct (Z.compare_spec (2 * (a mod den)) den), (Z.compare_spec (2 * (b mod den)) den);
      try destruct (Z.even (a / den)); lia.
  - pose proof (rhe_bounds a den Hd). 
    assert (a / den + 1 <= b / den) by lia.
    unfold round_half_even at 2.
    destruct (2 * (b mod den) ?= den); [destruct (Z.even _)|..]; try lia.
Qed.

Lemma rhe_exact den k : 0 < den -> round_half_even (k * den) den = k.
Proof.
  intros Hd. unfold round_half_even.
  rewrite Z.div_mul, Z.mod_mul by lia. 
  destruct (Z.compare_spec (2 * 0) den); lia.
Qed.

(** *** [binary_round_aux] on 53- and 54-bit mantissas *)

Lemma Zdigits2_unique q d :
  0 < q -> 2 ^ (d - 1) <= q < 2 ^ d -> Zdigits2 q = d.
Proof.
  intros Hq H. destruct q as [|p|p]; try lia. cbn. by apply digits2_pos_unique.
Qed.

Lemma shr_fexp_none q e l :
  Zdigits2 q = 53 -> -1074 <= e ->
  shr_fexp prec emax q e l = (shr_record_of_loc q l, e).
Proof.
  intros Hd He. unfold shr_fexp, fexp, emin, prec, emax. rewrite Hd.
  rewrite Z.max_l by lia. replace (53 + e - 53 - e) with 0 by lia. reflexivity.
Qed.

Lemma shr_fexp_one q e l :
  Zdigits2 q = 54 -> -1075 <= e ->
  shr_fexp prec emax q e l = (shr_1 (shr_record_of_loc q l), e + 1).
Proof.
  intros Hd He. unfold shr_fexp, fexp, emin, prec, emax. rewrite Hd.
  rewrite Z.max_l by lia. replace (54 + e - 53 - e) with 1 by lia. reflexivity.
Qed.

Lemma loc_of_shr_record_of_loc q l :
  loc_of_shr_record (shr_record_of_loc q l) = l /\
  shr_m (shr_record_of_loc q l) = q.
Proof. by destruct l as [|[]]. Qed.

Lemma round_nearest_even_bounds q l :
  q <= round_nearest_even q l <= q + 1.
Proof. destruct l as [|[]]; cbn; try destruct (Z.even q); lia. Qed.

Lemma finish_spec N e :
  2 ^ 52 <= N <= 2 ^ 53 -> -1074 <= e <= 970 ->
  (let '(mrs, e') := shr_fexp prec emax N e loc_Exact in
   match shr_m mrs with
   | Z0 => S754_zero false
   | Zpos m => if e' <=? emax - prec then S754_finite false m e'
               else S754_infinity false
   | Zneg _ => S754_nan
   end) = finish N e.
Proof.
  intros HN He. unfold finish.
  destruct (Z.eqb_spec N (2 ^ 53)) as [->|Hne].
  - rewrite shr_fexp_one by (reflexivity || lia). cbn [shr_record_of_loc].
    change (2 ^ 53) with 9007199254740992. cbn [shr_1 shr_m orb].
    unfold emax, prec. destruct (Z.leb_spec (e + 1) (1024 - 53)); [reflexivity|lia].
  - rewrite shr_fexp_none; [|apply Zdigits2_unique; lia|lia].
    cbn [shr_record_of_loc shr_m]. destruct N as [|p|p]; try lia.
    unfold emax, prec. destruct (Z.leb_spec e (1024 - 53)); [reflexivity|lia].
Qed.

Lemma binary_round_aux_53 q e l :
  2 ^ 52 <= q < 2 ^ 53 -> -1074 <= e <= 970 ->
  binary_round_aux prec emax false q e l = finish (round_nearest_even q l) e.
Proof.
  intros Hq He. unfold binary_round_aux.
  rewrite shr_fexp_none; [|apply Zdigits2_unique; lia|lia].
  destruct (loc_of_shr_record_of_loc q l) as [-> ->].
  apply finish_spec; [|lia].
  pose proof (round_nearest_even_bounds q l). lia.
Qed.

Lemma shr_1_div2 q l :
  2 <= q ->
  shr_m (shr_1 (shr_record_of_loc q l)) = q / 2 /\
  shr_r (shr_1 (shr_record_of_loc q l)) = Z.odd q /\
  shr_s (shr_1 (shr_record_of_loc q l)) =
    match l with loc_Exact => false | _ => true end.
Proof.
  intros Hq. destruct q as [|[p|p|]|p]; try lia.
  - split; [|split].
    + destruct l as [|[]]; cbn [shr_record_of_loc shr_1 shr_m];
        rewrite Pos2Z.inj_xI; apply (Z.div_unique _ 2 _ 1); lia.
    + by destruct l as [|[]].
    + by destruct l as [|[]].
  - split; [|split].
    + destruct l as [|[]]; cbn [shr_record_of_loc shr_1 shr_m];
        rewrite Pos2Z.inj_xO; apply (Z.div_unique _ 2 _ 0); lia.
    + by destruct l as [|[]].
    + by destruct l as [|[]].
Qed.

Lemma binary_round_aux_54 q e l :
  2 ^ 53 <= q < 2 ^ 54 -> -1075 <= e <= 969 ->
  binary_round_aux prec emax false q e l =
  let mrs := shr_1 (shr_record_of_loc q l) in
  finish (round_nearest_even (shr_m mrs) (loc_of_shr_record mrs)) (e + 1).
Proof.
  intros Hq He. unfold binary_round_aux.
  rewrite shr_fexp_one; [|apply Zdigits2_unique; lia|lia].
  cbv zeta. apply finish_spec; [|lia].
  destruct (shr_1_div2 q l ltac:(lia)) as (Hm & _ & _).
  pose proof (round_nearest_even_bounds
                (shr_m (shr_1 (shr_record_of_loc q l)))
                (loc_of_shr_record (shr_1 (shr_record_of_loc q l)))) as Hb.
  rewrite Hm in Hb |- *.
  assert (2 ^ 52 <= q / 2 < 2 ^ 53).
  { change (2 ^ 53) with (2 ^ 52 * 2) in Hq. change (2 ^ 54) with (2 ^ 53 * 2) in Hq.
    split; [apply Z.div_le_lower_bound; lia|apply Z.div_lt_upper_bound; lia]. }
  lia.
Qed.

(** *** Division of two positive floats with 53-bit mantissas *)

Lemma div_eucl_div_mod a b : Z.div_eucl a b = (a / b, a mod b).
Proof. unfold Z.div, Z.modulo. by destruct (Z.div_eucl a b). Qed.

Lemma SFdiv_core_closed mx ex my ey :
  digits2_pos mx = 53%positive -> digits2_pos my = 53%positive ->
  -1021 <= ex - ey ->
  SFdiv_core_binary prec emax (Zpos mx) ex (Zpos my) ey =
  ((Zpos mx * 2 ^ 53) / Zpos my, ex - ey - 53,
   new_location (Zpos my) ((Zpos mx * 2 ^ 53) mod Zpos my)).
Proof.
  intros Hx Hy He. unfold SFdiv_core_binary. cbn [Zdigits2]. rewrite Hx, Hy.
  unfold fexp, emin, prec, emax.
  rewrite Z.max_l by lia. rewrite Z.min_l by lia.
  replace (ex - ey - (53 + ex - (53 + ey) - 53)) with 53 by lia.
  rewrite Z.shiftl_mul_pow2 by lia. rewrite div_eucl_div_mod.
  replace (53 + ex - (53 + ey) - 53) with (ex - ey - 53) by lia. reflexivity.
Qed.

Lemma round_new_location q my r :
  0 < my -> 0 <= r < my ->
  round_nearest_even q (new_location my r) =
  match 2 * r ?= my with
  | Lt => q
  | Gt => q + 1
  | Eq => if Z.even q then q else q + 1
  end.
Proof.
  intros Hmy Hr. unfold new_location, new_location_even, new_location_odd.
  destruct (Z.even my) eqn:Ev.
  - destruct (Z.eqb_spec r 0) as [->|Hne].
    + cbn [round_nearest_even]. destruct (Z.compare_spec (2 * 0) my); lia.
    + cbn [round_nearest_even]. by destruct (2 * r ?= my).
  - destruct (Z.eqb_spec r 0) as [->|Hne].
    + cbn [round_nearest_even]. destruct (Z.compare_spec (2 * 0) my); lia.
    + assert (Hodd : Z.odd my = true) by (rewrite <- Z.negb_even, Ev; reflexivity).
      apply Z.odd_spec in Hodd as [k Hk].
      destruct (Z.compare_spec (2 * r + 1) my), (Z.compare_spec (2 * r) my);
        cbn [round_nearest_even]; try lia; reflexivity.
Qed.

Lemma round_shifted q my r :
  0 < my -> 0 <= r < my -> 2 <= q ->
  let mrs := shr_1 (shr_record_of_loc q (new_location my r)) in
  round_nearest_even (shr_m mrs) (loc_of_shr_record mrs) =
  round_half_even (q * my + r) (2 * my).
Proof.
  intros Hmy Hr Hq mrs.
  destruct (shr_1_div2 q (new_location my r) Hq) as (Hm & Hb & Hs).
  fold mrs in Hm, Hb, Hs.
  assert (Hst : shr_s mrs = negb (r =? 0)).
  { rewrite Hs. unfold new_location, new_location_even, new_location_odd.
    destruct (Z.even my), (r =? 0); reflexivity. }
  assert (Hrec : loc_of_shr_record mrs =
                 loc_of_shr_record (Build_shr_record (q / 2) (Z.odd q) (negb (r =? 0)))).
  { destruct mrs as [m b s]. cbn in Hm, Hb, Hst. by subst. }
  rewrite Hrec, Hm. clear Hrec Hm Hb Hs Hst mrs.
  pose proof (Z.div_mod q 2 ltac:(lia)) as Hdm.
  pose proof (Z.mod_pos_bound q 2 ltac:(lia)) as Hmod.
  assert (Hodd : q mod 2 = if Z.odd q then 1 else 0).
  { rewrite Zmod_odd. reflexivity. }
  unfold round_half_even.
  assert (Hdiv : (q * my + r) / (2 * my) = q / 2 /\
                 (q * my + r) mod (2 * my) = (q mod 2) * my + r).
  { assert (Hrem : 0 <= (q mod 2) * my + r < 2 * my) by nia.
    assert (Heq : q * my + r = (2 * my) * (q / 2) + ((q mod 2) * my + r)) by nia.
    split.
    - symmetry. apply (Z.div_unique _ _ _ ((q mod 2) * my + r)); lia.
    - symmetry. apply (Z.mod_unique _ _ (q / 2)); lia. }
  destruct Hdiv as [-> ->]. rewrite Hodd.
  destruct (Z.odd q), (Z.eqb_spec r 0) as [->|Hne]; cbn [loc_of_shr_record negb round_nearest_even].
  all: match goal with
       | |- context [?x ?= ?y] => destruct (Z.compare_spec x y)
       end; try lia; reflexivity.
Qed.

Lemma SFdiv_closed mx ex my ey :
  digits2_pos mx = 53%positive -> digits2_pos my = 53%positive ->
  -1021 <= ex - ey <= 1000 ->
  SFdiv prec emax (S754_finite false mx ex) (S754_finite false my ey) =
  quotient (Zpos mx) ex (Zpos my) ey.
Proof.
  intros Hx Hy He. unfold SFdiv. rewrite SFdiv_core_closed by (done || lia).
  cbn [xorb].
  pose proof (digits2_pos_bounds mx) as Bx. pose proof (digits2_pos_bounds my) as By.
  rewrite Hx in Bx. rewrite Hy in By.
  change (2 ^ (53 - 1)) with (2 ^ 52) in Bx, By.
  set (a := Zpos mx * 2 ^ 53). set (b := Zpos my).
  pose proof (Z.div_mod a b ltac:(lia)) as Hdm.
  pose proof (Z.mod_pos_bound a b ltac:(lia)) as Hr.
  unfold quotient. fold b.
  assert (P52 : 2 ^ 53 = 2 * 2 ^ 52) by reflexivity.
  assert (P54 : 2 ^ 54 = 2 * 2 ^ 53) by reflexivity.
  destruct (Z.ltb_spec (Zpos mx) b) as [Hlt|Hge].
  - assert (Hq : 2 ^ 52 <= a / b < 2 ^ 53).
    { split; [apply Z.div_le_lower_bound; unfold a; nia|
              apply Z.div_lt_upper_bound; unfold a; nia]. }
    rewrite binary_round_aux_53 by (done || lia).
    rewrite round_new_location by lia. reflexivity.
  - assert (Hq : 2 ^ 53 <= a / b < 2 ^ 54).
    { split; [apply Z.div_le_lower_bound; unfold a; nia|
              apply Z.div_lt_upper_bound; unfold a; nia]. }
    rewrite binary_round_aux_54 by (done || lia). cbv zeta.
    rewrite round_shifted by lia.
    replace (ex - ey - 53 + 1) with (ex - ey - 52) by lia.
    do 2 f_equal. lia.
Qed.

(** *** Conversion of an integer below 2^53 *)

Lemma Pos_iter_xO p k : Zpos (Pos.iter xO p k) = Zpos p * 2 ^ Zpos k.
Proof.
  induction k as [|k IH] using Pos.peano_ind.
  - cbn. lia.
  - rewrite Pos.iter_succ, Pos2Z.inj_xO, IH, Pos2Z.inj_succ, Z.pow_succ_r by lia.
    lia.
Qed.

Lemma Zdigits2_bounds z :
  0 < z -> 2 ^ (Zdigits2 z - 1) <= z < 2 ^ Zdigits2 z.
Proof. destruct z as [|p|p]; try lia. intros _. apply digits2_pos_bounds. Qed.

Lemma Zdigits2_le_53 z : 0 < z < 2 ^ 53 -> 1 <= Zdigits2 z <= 53.
Proof.
  intros Hz. pose proof (Zdigits2_bounds z ltac:(lia)) as [Hl Hu].
  destruct z as [|p|p]; try lia. cbn in *. split; [lia|].
  destruct (Z_lt_le_dec 53 (Zpos (digits2_pos p))) as [H|H]; [|lia].
  assert (2 ^ 53 <= 2 ^ (Zpos (digits2_pos p) - 1)) by (apply Z.pow_le_mono_r; lia).
  lia.
Qed.

Lemma mantissa_bounds z :
  0 < z < 2 ^ 53 -> 2 ^ 52 <= mantissa z < 2 ^ 53.
Proof.
  intros Hz. pose proof (Zdigits2_bounds z ltac:(lia)) as [Hl Hu].
  pose proof (Zdigits2_le_53 z Hz) as Hd. unfold mantissa.
  set (d := Zdigits2 z) in *.
  assert (E52 : 2 ^ 52 = 2 ^ (d - 1) * 2 ^ (53 - d))
    by (rewrite <- Z.pow_add_r by lia; f_equal; lia).
  assert (E53 : 2 ^ 53 = 2 ^ d * 2 ^ (53 - d))
    by (rewrite <- Z.pow_add_r by lia; f_equal; lia).
  assert (0 < 2 ^ (53 - d)) by (apply Z.pow_pos_nonneg; lia).
  rewrite E52, E53. nia.
Qed.

Lemma binary_normalize_exact z :
  0 < z < 2 ^ 53 ->
  binary_normalize prec emax z 0 false =
  S754_finite false (Z.to_pos (mantissa z)) (exponent z).
Proof.
  intros Hz. pose proof (mantissa_bounds z Hz) as HM.
  pose proof (Zdigits2_le_53 z Hz) as Hd.
  unfold mantissa, exponent in *.
  destruct z as [|p|p]; try lia. cbn [binary_normalize Zdigits2] in *.
  unfold binary_round, shl_align, fexp, emin, prec, emax.
  rewrite Z.add_0_r, Z.max_l, Z.sub_0_r by lia.
  set (d := Zpos (digits2_pos p)) in *.
  assert (Hfin : binary_round_aux 53 1024 false (Zpos p * 2 ^ (53 - d)) (d - 53) loc_Exact
                 = S754_finite false (Z.to_pos (Zpos p * 2 ^ (53 - d))) (d - 53)).
  { change 53 with prec at 1. change 1024 with emax.
    rewrite binary_round_aux_53 by lia. cbn [round_nearest_even]. unfold finish.
    destruct (Z.eqb_spec (Zpos p * 2 ^ (53 - d)) (2 ^ 53)); [lia|reflexivity]. }
  destruct (d - 53) as [|k|k] eqn:Edk; try lia.
  - replace (53 - d) with 0 in * by lia.
    rewrite Z.pow_0_r, Z.mul_1_r in Hfin |- *. exact Hfin.
  - replace (53 - d) with (Zpos k) in * by lia.
    rewrite <- Pos_iter_xO in Hfin |- *. exact Hfin.
Qed.

Lemma mantissa_digits z :
  0 < z < 2 ^ 53 -> digits2_pos (Z.to_pos (mantissa z)) = 53%positive.
Proof.
  intros Hz. pose proof (mantissa_bounds z Hz) as HM.
  assert (H : Zpos (digits2_pos (Z.to_pos (mantissa z))) = 53).
  { apply digits2_pos_unique. rewrite Z2Pos.id by lia. exact HM. }
  congruence.
Qed.

Lemma exponent_bounds z : 0 < z < 2 ^ 53 -> -52 <= exponent z <= 0.
Proof. intros Hz. pose proof (Zdigits2_le_53 z Hz). unfold exponent. lia. Qed.

Lemma Zdigits2_mono a b : 0 < a <= b -> Zdigits2 a <= Zdigits2 b.
Proof.
  intros H. pose proof (Zdigits2_bounds a ltac:(lia)) as [Al Au].
  pose proof (Zdigits2_bounds b ltac:(lia)) as [Bl Bu].
  destruct (Z_lt_le_dec (Zdigits2 b) (Zdigits2 a)) as [Hlt|]; [|lia].
  assert (2 ^ Zdigits2 b <= 2 ^ (Zdigits2 a - 1)).
  { apply Z.pow_le_mono_r; [lia|]. lia. }
  lia.
Qed.

(** Larger integers have larger (exponent, mantissa) pairs. *)
Lemma canonical_mono a b :
  0 < a <= b -> b < 2 ^ 53 ->
  exponent a < exponent b \/
  (exponent a = exponent b /\ mantissa a <= mantissa b).
Proof.
  intros Hab Hb. pose proof (Zdigits2_mono a b Hab) as Hd.
  unfold exponent, mantissa.
  destruct (Z.eq_dec (Zdigits2 a) (Zdigits2 b)) as [E|NE]; [right|left; lia].
  split; [lia|]. rewrite E.
  pose proof (Zdigits2_le_53 b ltac:(lia)).
  assert (0 < 2 ^ (53 - Zdigits2 b)) by (apply Z.pow_pos_nonneg; lia).
  nia.
Qed.

(** *** Order of quotients *)

Lemma rhe_scale a b :
  0 < b -> round_half_even (2 * a) (2 * b) = round_half_even a b.
Proof.
  intros Hb. unfold round_half_even.
  rewrite Z.div_mul_cancel_l, Z.mul_mod_distr_l by lia.
  destruct (Z.compare_spec (2 * (2 * (a mod b))) (2 * b)),
           (Z.compare_spec (2 * (a mod b)) b); try lia; reflexivity.
Qed.

Lemma rhe_lower k a b : 0 < b -> k * b <= a -> k <= round_half_even a b.
Proof.
  intros Hb H. rewrite <- (rhe_exact b k Hb). by apply rhe_mono.
Qed.

Lemma rhe_upper k a b : 0 < b -> a <= k * b -> round_half_even a b <= k.
Proof.
  intros Hb H. rewrite <- (rhe_exact b k Hb). by apply rhe_mono.
Qed.

Lemma SFleb_finish N1 e1 N2 e2 :
  2 ^ 52 <= N1 <= 2 ^ 53 -> 2 ^ 52 <= N2 <= 2 ^ 53 ->
  e1 < e2 \/ (e1 = e2 /\ N1 <= N2) ->
  SFleb (finish N1 e1) (finish N2 e2) = true.
Proof.
  intros H1 H2 H. unfold finish, SFleb, SFcompare.
  change (Pos.compare_cont Eq) with Pos.compare.
  destruct (Z.eqb_spec N1 (2 ^ 53)), (Z.eqb_spec N2 (2 ^ 53)).
  all: match goal with
       | |- context [?x ?= ?y] => destruct (Z.compare_spec x y)
       end; try lia; try reflexivity.
  all: match goal with
       | |- context [(?x ?= ?y)%positive] => destruct (Pos.compare_spec x y)
       end; try lia; try reflexivity.
Qed.

Section Quotient.

Variables mx1 ex1 mx2 ex2 my ey : Z.
Hypothesis mx1_range : 2 ^ 52 <= mx1 < 2 ^ 53.
Hypothesis mx2_range : 2 ^ 52 <= mx2 < 2 ^ 53.
Hypothesis my_range : 2 ^ 52 <= my < 2 ^ 53.

Lemma quotient_range (mx ex : Z) :
  2 ^ 52 <= mx < 2 ^ 53 ->
  (mx < my ->
   2 ^ 52 <= round_half_even (mx * 2 ^ 53) my <= 2 ^ 53) /\
  (my <= mx ->
   2 ^ 52 <= round_half_even (mx * 2 ^ 53) (2 * my) <= 2 ^ 53).
Proof.
  intros Hmx. assert (P : 2 ^ 53 = 2 * 2 ^ 52) by reflexivity.
  split; intros H; split.
  - apply rhe_lower; nia.
  - apply rhe_upper; nia.
  - apply rhe_lower; nia.
  - apply rhe_upper; nia.
Qed.

Lemma quotient_mono :
  ex1 < ex2 \/ (ex1 = ex2 /\ mx1 <= mx2) ->
  SFleb (quotient mx1 ex1 my ey) (quotient mx2 ex2 my ey) = true.
Proof.
  intros Hle. unfold quotient.
  pose proof (quotient_range mx1 ex1 mx1_range) as [A1 B1].
  pose proof (quotient_range mx2 ex2 mx2_range) as [A2 B2].
  assert (P : 2 ^ 53 = 2 * 2 ^ 52) by reflexivity.
  destruct (Z.ltb_spec mx1 my) as [H1|H1], (Z.ltb_spec mx2 my) as [H2|H2].
  - apply SFleb_finish; [auto..|].
    destruct Hle as [Hlt|[-> Hm]]; [left; lia|right].
    split; [lia|]. apply rhe_mono; nia.
  - apply SFleb_finish; [auto..|]. left. lia.
  - apply SFleb_finish; [auto..|].
    destruct Hle as [Hlt|[-> Hm]]; [|lia].
    destruct (Z.eq_dec (ex1 + 1) ex2) as [E|NE]; [right|left; lia].
    split; [lia|]. rewrite <- (rhe_scale (mx2 * 2 ^ 53)) by lia.
    apply rhe_mono; nia.
  - apply SFleb_finish; [auto..|].
    destruct Hle as [Hlt|[-> Hm]]; [left; lia|right].
    split; [lia|]. apply rhe_mono; nia.
Qed.

End Quotient.

Lemma quotient_same m e :
  2 ^ 52 <= m < 2 ^ 53 ->
  quotient m e m e = S754_finite false 4503599627370496 (-52).
Proof.
  intros Hm. unfold quotient. rewrite Z.ltb_irrefl.
  replace (m * 2 ^ 53) with (2 ^ 52 * (2 * m)) by (change (2 ^ 53) with (2 * 2 ^ 52); lia).
  rewrite rhe_exact by lia. replace (e - e - 52) with (-52) by lia. reflexivity.
Qed.

(** *** Quotients of two counts *)

Lemma float_of_int_exact z :
  0 < z < exact_bound ->
  Prim2SF (float_of_int z) =
  S754_finite false (Z.to_pos (mantissa z)) (exponent z).
Proof.
  intros Hz. unfold exact_bound in Hz.
  destruct z as [|p|p]; try lia. cbn [float_of_int].
  rewrite FloatAxioms.of_uint63_spec, Uint63.of_Z_spec.
  rewrite Z.mod_small by (change wB with (2 ^ 63); split; [lia|];
                          apply Z.lt_trans with (2 ^ 53); [lia|reflexivity]).
  by apply binary_normalize_exact.
Qed.

Lemma float_of_int_zero : Prim2SF (float_of_int 0) = S754_zero false.
Proof. reflexivity. Qed.

Lemma ratio_spec k n :
  0 < k < exact_bound -> 0 < n < exact_bound ->
  Prim2SF (ratio k n) =
  quotient (mantissa k) (exponent k) (mantissa n) (exponent n).
Proof.
  intros Hk Hn. unfold ratio.
  rewrite FloatAxioms.div_spec, !float_of_int_exact by done.
  unfold exact_bound in *.
  pose proof (mantissa_bounds k Hk). pose proof (mantissa_bounds n Hn).
  pose proof (exponent_bounds k Hk). pose proof (exponent_bounds n Hn).
  unfold SF64div.
  rewrite SFdiv_closed; [|by apply mantissa_digits|by apply mantissa_digits|lia].
  by rewrite !Z2Pos.id by lia.
Qed.

Lemma ratio_zero n :
  0 < n < exact_bound -> Prim2SF (ratio 0 n) = S754_zero false.
Proof.
  intros Hn. unfold ratio.
  rewrite FloatAxioms.div_spec, (float_of_int_exact n), float_of_int_zero by done.
  reflexivity.
Qed.

(** The quotient does not decrease with the numerator. *)
Lemma ratio_mono k k' n :
  0 <= k <= k' -> k' < exact_bound -> 0 < n < exact_bound ->
  PrimFloat.leb (ratio k n) (ratio k' n) = true.
Proof.
  intros Hk Hk' Hn. rewrite FloatAxioms.leb_spec.
  destruct (Z.eq_dec k 0) as [->|Hk0].
  - rewrite ratio_zero by done.
    destruct (Z.eq_dec k' 0) as [->|Hk'0].
    + by rewrite ratio_zero.
    + rewrite ratio_spec by (done || lia). unfold quotient, finish.
      by repeat destruct (_ <? _), (_ =? _).
  - rewrite !ratio_spec by (done || lia). unfold exact_bound in *.
    apply quotient_mono.
    + apply mantissa_bounds; lia.
    + apply mantissa_bounds; lia.
    + apply mantissa_bounds; lia.
    + apply canonical_mono; lia.
Qed.

(** A count divided by itself is [1.0]. *)
Lemma ratio_full n : 0 < n < exact_bound -> ratio n n = 1%float.
Proof.
  intros Hn. apply Prim2SF_inj. rewrite ratio_spec by done.
  rewrite quotient_same by (apply mantissa_bounds; exact Hn). reflexivity.
Qed.

Lemma ratio_bounds k n :
  0 <= k <= n -> 0 < n < exact_bound ->
  PrimFloat.leb 0%float (ratio k n) = true /\
  PrimFloat.leb (ratio k n) 1%float = true.
Proof.
  intros Hk Hn. split.
  - assert (H0 : PrimFloat.leb 0%float (ratio 0 n) = true).
    { rewrite FloatAxioms.leb_spec, ratio_zero by done. reflexivity. }
    pose proof (ratio_mono 0 k n ltac:(lia) ltac:(lia) Hn) as H.
    rewrite FloatAxioms.leb_spec in *. rewrite ratio_zero in * by done.
    change (Prim2SF 0) with (S754_zero false). exact H.
  - rewrite <- (ratio_full n Hn). apply ratio_mono; lia.
Qed.

(** ** The sampler *)

(** C1. [generate_sample] draws exactly 54 trials; trial [i] takes its sex
    from draw [2i] and its arm from draw [2i+1] of the random source, and
    every sequence of 54 trials comes from exactly one sequence of 108
    draws, so that uniform independent draws give uniform, mutually
    independent attributes; the frequency table holds the four
    (sex, arm) counts of the batch; and the value returned is [p2 - p1]
    ([female_dx - male_dx]), where [p1] and [p2] are the proportions of
    "Dx" among the male and among the female trials. *)
Theorem generate_sample_statistic (w : world) :
  let b := batch (random w) in
  fst (draw_trials sample_size [] w) = Ok b /\
  length b = 54%nat /\
  (forall i, (i < 54)%nat ->
     b !! i =
     Some (pick ["M"; "F"]%string
             (tape (random w) (cursor (random w) + 2 * i)%nat),
           pick ["Sx"; "Dx"]%string
             (tape (random w) (cursor (random w) + 2 * i + 1)%nat))) /\
  (forall target c, length target = 54%nat -> Forall valid_trial target ->
     exists t, batch (Rng t c) = target) /\
  (forall t1 t2 c, batch (Rng t1 c) = batch (Rng t2 c) ->
     forall i, (i < 108)%nat -> t1 (c + i)%nat = t2 (c + i)%nat) /\
  count_frequencies b initial_counts =
    Ok (counts_map (count "M" "Sx" b) (count "M" "Dx" b)
                   (count "F" "Sx" b) (count "F" "Dx" b)) /\
  fst (generate_sample w) =
    proportion_difference (count "M" "Sx" b) (count "M" "Dx" b)
                          (count "F" "Sx" b) (count "F" "Dx" b).
Proof.
  intros b. split_and!.
  - rewrite draw_trials_spec. reflexivity.
  - apply batch_length.
  - intros i Hi. apply trials_from_lookup. exact Hi.
  - intros target c Hlen Hv. exists (tape_of target c).
    unfold batch. cbn [tape cursor].
    replace sample_size with (length target) by (rewrite Hlen; reflexivity).
    by apply trials_from_tape_of.
  - intros t1 t2 c E i Hi. by apply (trials_from_inj t1 t2 c sample_size).
  - change initial_counts with (counts_map 0 0 0 0).
    rewrite count_frequencies_spec by apply batch_valid.
    by rewrite !Z.add_0_l.
  - by rewrite generate_sample_spec.
Qed.

(** C3. Whenever both sexes occur in the batch, [generate_sample] returns
    a statistic, and it lies in [-1, 1]. *)
Theorem generate_sample_in_unit_interval (w : world) :
  0 < group_size "M" (batch (random w)) ->
  0 < group_size "F" (batch (random w)) ->
  exists v, fst (generate_sample w) = Ok v /\
            PrimFloat.leb (-1)%float v = true /\
            PrimFloat.leb v 1%float = true.
Proof.
  intros Hm Hf.
  destruct (generate_sample_cases w) as [[[H0|H0] _]|[_ (v & Hv & Hr)]];
    [lia..|].
  exists v. split; [exact Hv|].
  cbn in Hr. rewrite !andb_true_iff in Hr. tauto.
Qed.

Lemma generate_sample_in_unit_interval_witness :
  exists v, fst (generate_sample (fresh (Rng mixed_tape 0))) = Ok v /\
            PrimFloat.leb (-1)%float v = true /\
            PrimFloat.leb v 1%float = true.
Proof.
  apply (generate_sample_in_unit_interval (fresh (Rng mixed_tape 0)));
    vm_compute; reflexivity.
Defined.

(** C4. [generate_sample] raises [ZeroDivisionError] exactly when one of
    the two sexes does not occur in the batch.  Nothing guards the
    divisions: it raises no other exception, never draws a second batch
    (the random source has moved by the 108 draws of one batch, whatever
    the outcome), and a value it returns is a finite float, neither NaN
    nor an infinity. *)
Theorem generate_sample_zero_division (w : world) :
  let b := batch (random w) in
  (fst (generate_sample w) = Raise ZeroDivisionError <->
   group_size "M" b = 0 \/ group_size "F" b = 0) /\
  (forall e, fst (generate_sample w) = Raise e -> e = ZeroDivisionError) /\
  (forall v, fst (generate_sample w) = Ok v ->
     PrimFloat.is_nan v = false /\ PrimFloat.is_infinity v = false) /\
  snd (generate_sample w) =
    World (session_state w) (advance 108 (random w)) (page w).
Proof.
  intros b.
  destruct (generate_sample_cases w) as [[H0 Hr]|[[Hm Hf] (v & Hv & Hr)]];
    fold b in H0 || fold b in Hm, Hf.
  - split_and!; try congruence.
    + by split.
    + by rewrite generate_sample_spec.
  - split_and!; try congruence.
    + split; [congruence|]. intros [H0|H0]; lia.
    + intros v' Hv'. assert (v' = v) as -> by congruence.
      cbn in Hr. unfold is_finite in Hr.
      rewrite !andb_true_iff, negb_true_iff, orb_false_iff in Hr. tauto.
    + by rewrite generate_sample_spec.
Qed.

(** ** The p-value estimate *)

Lemma py_sum_from (xs : list Z) : forall acc,
  fold_left Z.add xs acc = acc + py_sum xs.
Proof.
  unfold py_sum. induction xs as [|x xs IH]; intros acc; cbn [fold_left].
  - lia.
  - rewrite IH, (IH (0 + x)). lia.
Qed.

Lemma py_sum_extreme values observed :
  py_sum (map (fun d => int_of_bool
                 (py_ge (PrimFloat.abs d) (PrimFloat.abs observed))) values)
  = extreme_count values observed.
Proof.
  unfold extreme_count. induction values as [|d values IH]; [reflexivity|].
  unfold py_sum in *. cbn [map fold_left]. rewrite py_sum_from.
  unfold py_sum. rewrite IH, filter_cons. unfold at_least_as_extreme at 2.
  case_decide as Hd.
  - rewrite Hd, length_cons. cbn [int_of_bool]. lia.
  - apply not_true_is_false in Hd. rewrite Hd. cbn [int_of_bool]. lia.
Qed.

Lemma extreme_count_bounds values observed :
  0 <= extreme_count values observed <= Z.of_nat (length values).
Proof.
  unfold extreme_count. pose proof (length_filter (at_least_as_extreme observed) values).
  lia.
Qed.

Lemma extreme_count_mono values o1 o2 :
  PrimFloat.leb (PrimFloat.abs o1) (PrimFloat.abs o2) = true ->
  extreme_count values o2 <= extreme_count values o1.
Proof.
  intros Ho. unfold extreme_count.
  induction values as [|d values IH]; [reflexivity|].
  rewrite !filter_cons. unfold at_least_as_extreme at 1 3, py_ge.
  repeat case_decide; rewrite ?length_cons; try lia.
  exfalso. apply H0. unfold at_least_as_extreme, py_ge.
  by apply (leb_trans _ (PrimFloat.abs o2)).
Qed.

Lemma extreme_count_zero values :
  Forall (fun d => PrimFloat.is_nan d = false) values ->
  extreme_count values 0%float = Z.of_nat (length values).
Proof.
  unfold extreme_count. induction 1 as [|d values Hd _ IH]; [reflexivity|].
  rewrite filter_cons. case_decide as Hx.
  - rewrite !length_cons. lia.
  - exfalso. apply Hx. unfold at_least_as_extreme, py_ge.
    change (PrimFloat.abs 0) with 0%float. by apply abs_nonneg.
Qed.

Lemma p_value_ratio values observed :
  values <> [] ->
  p_value values observed (Z.of_nat (length values)) =
  Ok (ratio (extreme_count values observed) (Z.of_nat (length values))).
Proof.
  intros Hne. unfold p_value, py_true_div. rewrite py_sum_extreme.
  destruct (Z.eqb_spec (Z.of_nat (length values)) 0) as [E|_]; [|reflexivity].
  destruct values; [done|]. rewrite length_cons in E. lia.
Qed.

Lemma length_pos (values : list float) :
  values <> [] -> 1 <= Z.of_nat (length values).
Proof. destruct values; [done|]. rewrite length_cons. lia. Qed.

(** C2. On a non-empty sequence of values (fewer than [2^53] of them, so
    that the two counts convert to floats exactly) the estimate is the
    number of values [v] with [abs(v) >= abs(observed)] divided by the
    number of values, and it lies in [0, 1]. *)
Theorem p_value_in_unit_interval (values : list float) (observed : float) :
  values <> [] ->
  Z.of_nat (length values) < exact_bound ->
  exists p,
    p_value values observed (Z.of_nat (length values)) = Ok p /\
    p = PrimFloat.div (float_of_int (extreme_count values observed))
                      (float_of_int (Z.of_nat (length values))) /\
    PrimFloat.leb 0%float p = true /\ PrimFloat.leb p 1%float = true.
Proof.
  intros Hne Hmax. eexists. split; [by apply p_value_ratio|].
  split; [reflexivity|].
  pose proof (length_pos values Hne).
  apply ratio_bounds; [apply extreme_count_bounds|lia].
Qed.

(** C5. On a fixed non-empty sequence of values (fewer than [2^53] of
    them) the estimate does not increase with [abs(observed)]: if
    [abs(o1) <= abs(o2)] then the estimate for [o2] is at most the one
    for [o1]. *)
Theorem p_value_monotone (values : list float) (o1 o2 : float) :
  values <> [] ->
  Z.of_nat (length values) < exact_bound ->
  PrimFloat.leb (PrimFloat.abs o1) (PrimFloat.abs o2) = true ->
  exists p1 p2,
    p_value values o1 (Z.of_nat (length values)) = Ok p1 /\
    p_value values o2 (Z.of_nat (length values)) = Ok p2 /\
    PrimFloat.leb p2 p1 = true.
Proof.
  intros Hne Hmax Ho. do 2 eexists.
  split; [by apply p_value_ratio|]. split; [by apply p_value_ratio|].
  pose proof (length_pos values Hne).
  pose proof (extreme_count_bounds values o1).
  pose proof (extreme_count_bounds values o2).
  pose proof (extreme_count_mono values o1 o2 Ho).
  apply ratio_mono; lia.
Qed.

(** C6. On a non-empty sequence of statistics (floats other than NaN,
    fewer than [2^53] of them) the estimate for [observed = 0] is exactly
    [1.0]: every value [v] has [abs(v) >= 0] and counts. *)
Theorem p_value_observed_zero (values : list float) :
  values <> [] ->
  Z.of_nat (length values) < exact_bound ->
  Forall (fun d => PrimFloat.is_nan d = false) values ->
  extreme_count values 0%float = Z.of_nat (length values) /\
  p_value values 0%float (Z.of_nat (length values)) = Ok 1%float.
Proof.
  intros Hne Hmax Hnan. split; [by apply extreme_count_zero|].
  rewrite p_value_ratio, extreme_count_zero by done.
  pose proof (length_pos values Hne).
  f_equal. apply ratio_full. lia.
Qed.

(** ** One run of the script *)

Lemma target_of_options ui : In (target_of ui) target_options.
Proof.
  unfold target_of, st_selectbox.
  destruct (target_choice ui) as [i|]; [|cbn; tauto].
  destruct (Nat.ltb_spec i (length target_options)) as [Hi|_]; [|cbn; tauto].
  apply nth_In. exact Hi.
Qed.

Lemma target_of_bounds ui : 100 <= target_of ui <= max_target.
Proof.
  pose proof (target_of_options ui) as H. unfold max_target.
  destruct H as [H|[H|[H|[H|[H|[]]]]]]; rewrite <- H; lia.
Qed.

(** A run in closed form. *)
Lemma main_spec ui w :
  main ui w =
  let '(ds, r) := after_buttons ui (session_state w) in
  let pg := page w ++ rendered ui ds in
  if r && (Z.of_nat (length ds) <? target_of ui)
  then
    match statistic_of (random w) with
    | Ok v => (Ok true, World (Session (Some (ds ++ [v])) (Some r))
                              (advance (2 * sample_size) (random w)) pg)
    | Raise e => (Raise e, World (Session (Some ds) (Some r))
                                 (advance (2 * sample_size) (random w)) pg)
    end
  else (Ok false, World (Session (Some ds) (Some r)) (random w) pg).
Proof.
  pose proof (target_of_bounds ui) as Ht.
  assert (Hdiv : forall c, py_true_div c (target_of ui)
                           = Ok (ratio c (target_of ui))).
  { intros c. unfold py_true_div.
    destruct (Z.eqb_spec (target_of ui) 0); [lia|reflexivity]. }
  assert (Hp : forall ds : list float,
             (0 <? Z.of_nat (length ds)) = true ->
             p_value ds observed (Z.of_nat (length ds)) =
             Ok (ratio (extreme_count ds observed) (Z.of_nat (length ds)))).
  { intros ds Hds. apply p_value_ratio. intros ->. discriminate. }
  destruct w as [[d r] g pg]. unfold after_buttons. cbn [session_state differences running random page].
  unfold main, mbind, script_bind, mret, script_ret, lift,
    initialize_session_state, get_running, set_running, get_differences,
    set_differences, render, progress_value.
  fold (target_of ui).
  cbn [session_state differences running random page].
  destruct (start_stop_clicked ui), (reset_clicked ui);
    cbn [session_state differences running random page fst snd].
  all: rewrite Hdiv; unfold rendered;
       cbn [session_state differences running random page].
  all: match goal with
       | |- context [0 <? Z.of_nat (length ?l)] =>
           let E := fresh "E" in
           destruct (0 <? Z.of_nat (length l)) eqn:E;
           cbn [session_state differences running random page];
           [rewrite (Hp l E)|]
       end.
  all: cbn [session_state differences running random page].
  all: match goal with
       | |- context [?b && (?x <? ?y)] =>
           destruct (b && (x <? y))
       end.
  all: rewrite ?generate_sample_spec; unfold statistic_of; cbn zeta;
       cbn [session_state differences running random page fst snd].
  all: try destruct (proportion_difference _ _ _ _);
       cbn [session_state differences running random page];
       rewrite <- ?app_assoc; reflexivity.
Qed.

(** A tick in closed form: the buttons act, the page is rendered over the
    resulting differences, and one statistic is appended when the run
    loop's condition holds and the sampler returns. *)
Lemma tick_spec ui w :
  tick ui w =
  let '(ds, r) := after_buttons ui (session_state w) in
  if r && (Z.of_nat (length ds) <? target_of ui)
  then
    match statistic_of (random w) with
    | Ok v => (Ok true, World (Session (Some (ds ++ [v])) (Some r))
                              (advance (2 * sample_size) (random w))
                              (rendered ui ds))
    | Raise e => (Raise e, World (Session (Some ds) (Some r))
                                 (advance (2 * sample_size) (random w))
                                 (rendered ui ds))
    end
  else (Ok false, World (Session (Some ds) (Some r)) (random w)
                        (rendered ui ds)).
Proof. unfold tick. rewrite main_spec. reflexivity. Qed.

Lemma statistic_of_cases g :
  statistic_of g = Raise ZeroDivisionError \/
  exists v, statistic_of g = Ok v /\ statistic_in_range (Ok v) = true.
Proof.
  pose proof (generate_sample_cases (World (Session None None) g [])) as H.
  rewrite generate_sample_spec in H. cbn [fst random] in H.
  fold (statistic_of g) in H. cbv zeta in H.
  destruct H as [[_ H]|[_ H]]; [by left|by right].
Qed.

Lemma statistic_not_nan g v :
  statistic_of g = Ok v -> PrimFloat.is_nan v = false.
Proof.
  intros Hv. destruct (statistic_of_cases g) as [H|(v' & H & Hr)];
    [congruence|].
  assert (v' = v) as -> by congruence.
  cbn in Hr. unfold is_finite in Hr.
  rewrite !andb_true_iff, negb_true_iff, orb_false_iff in Hr. tauto.
Qed.

(** ** Reachable worlds *)

Lemma after_buttons_cases ui s :
  let '(ds, r) := after_buttons ui s in
  ds = [] \/ ds = default [] (differences s).
Proof. unfold after_buttons. destruct (reset_clicked ui); auto. Qed.

(** What a tick does to the accumulated differences. *)
Lemma tick_accumulated ui w :
  let ds := (after_buttons ui (session_state w)).1 in
  let r := (after_buttons ui (session_state w)).2 in
  let w' := snd (tick ui w) in
  is_running w' = r /\
  (accumulated w' = ds \/
   exists v, accumulated w' = ds ++ [v] /\ r = true /\
             Z.of_nat (length ds) < target_of ui /\
             statistic_of (random w) = Ok v).
Proof.
  rewrite tick_spec. destruct (after_buttons ui (session_state w)) as [ds r].
  cbn [fst snd].
  destruct (r && (Z.of_nat (length ds) <? target_of ui)) eqn:E.
  - apply andb_true_iff in E as [-> E%Z.ltb_lt].
    destruct (statistic_of (random w)) as [v|e] eqn:Hv; cbn; split; auto.
    right. by exists v.
  - cbn. auto.
Qed.

Lemma reachable_invariant w :
  reachable w ->
  Z.of_nat (length (accumulated w)) <= max_target /\
  Forall (fun d => PrimFloat.is_nan d = false) (accumulated w).
Proof.
  induction 1 as [g|ui w Hw [IHlen IHnan]].
  - split; [done|constructor].
  - pose proof (tick_accumulated ui w) as [_ H]. cbv zeta in H.
    pose proof (after_buttons_cases ui (session_state w)) as Hb.
    destruct (after_buttons ui (session_state w)) as [ds r]. cbn [fst snd] in H.
    assert (Hds : Z.of_nat (length ds) <= max_target /\
                  Forall (fun d => PrimFloat.is_nan d = false) ds).
    { destruct Hb as [-> | ->]; [split; [done|constructor]|done]. }
    destruct Hds as [Hlen Hnan].
    destruct H as [-> | (v & -> & _ & Hlt & Hv)]; [done|].
    pose proof (target_of_bounds ui). split.
    + rewrite length_app. cbn [length]. lia.
    + apply Forall_app. split; [done|]. constructor; [|constructor].
      by apply (statistic_not_nan (random w)).
Qed.

(** Whatever a session accumulates is within the range on which the
    estimate is studied: fewer than [2^53] values, none of them NaN. *)
Lemma reachable_accumulated w :
  reachable w ->
  Z.of_nat (length (accumulated w)) < exact_bound /\
  Forall (fun d => PrimFloat.is_nan d = false) (accumulated w).
Proof.
  intros [Hlen Hnan]%reachable_invariant. split; [|done].
  unfold max_target, exact_bound in *. lia.
Qed.

(** ** Signs of converted integers and of their quotients *)

Section FloatSign.

Local Open Scope float_scope.

Lemma binary_round_aux_sign m e l :
  unsigned_or_nan (binary_round_aux prec emax false m e l) = true.
Proof.
  unfold binary_round_aux.
  destruct (shr_fexp prec emax m e l) as [mrs' e'].
  destruct (shr_fexp prec emax _ e' loc_Exact) as [mrs'' e''].
  destruct (shr_m mrs''); [reflexivity| |reflexivity].
  destruct (_ <=? _)%Z; reflexivity.
Qed.

Lemma of_uint63_sign i : unsigned_or_nan (Prim2SF (of_uint63 i)) = true.
Proof.
  rewrite FloatAxioms.of_uint63_spec. pose proof (Uint63.to_Z_bounded i) as Hi.
  unfold binary_normalize. destruct (Uint63.to_Z i) as [|p|p]; [reflexivity| |lia].
  unfold binary_round. destruct (shl_align _ _ _) as [mz ez].
  apply binary_round_aux_sign.
Qed.

Lemma float_of_int_sign z :
  (0 <= z)%Z -> unsigned_or_nan (Prim2SF (float_of_int z)) = true.
Proof.
  intros Hz. rewrite float_of_int_nonneg by done. apply of_uint63_sign.
Qed.

Lemma div_sign x y :
  unsigned_or_nan (Prim2SF x) = true ->
  unsigned_or_nan (Prim2SF y) = true ->
  unsigned_or_nan (Prim2SF (x / y)) = true.
Proof.
  rewrite FloatAxioms.div_spec. unfold SF64div, SFdiv.
  destruct (Prim2SF x) as [[]|[]| |[] mx ex],
           (Prim2SF y) as [[]|[]| |[] my ey];
    try discriminate; try reflexivity.
  intros _ _. destruct (SFdiv_core_binary _ _ _ _ _ _) as [[mz ez] lz].
  apply binary_round_aux_sign.
Qed.

Lemma unsigned_nonneg x :
  unsigned_or_nan (Prim2SF x) = true -> is_nan x = false ->
  (0 <=? x) = true.
Proof.
  intros Hs Hn%is_nan_spec. rewrite FloatAxioms.leb_spec.
  change (Prim2SF 0) with (S754_zero false).
  by destruct (Prim2SF x) as [[]|[]| |[] m e].
Qed.

Lemma ltb_not_nan_l x y : (x <? y) = true -> is_nan x = false.
Proof. intros H%ltb_leb. by apply leb_not_nan_l in H. Qed.

(** [min(1.0, q)] of a quotient of two non-negative ints. *)
Lemma py_min_one_bounds q :
  unsigned_or_nan (Prim2SF q) = true ->
  (0 <=? py_min 1 q) = true /\ (py_min 1 q <=? 1) = true.
Proof.
  intros Hs. unfold py_min. destruct (q <? 1) eqn:E.
  - split; [|by apply ltb_leb].
    apply unsigned_nonneg; [done|by apply (ltb_not_nan_l q 1)].
  - split; reflexivity.
Qed.

(** A float between 0 and 1 is a zero or a finite number. *)
Lemma unit_interval_finite p :
  (0 <=? p) = true -> (p <=? 1) = true ->
  match Prim2SF p with
  | S754_zero _ | S754_finite _ _ _ => True
  | _ => False
  end.
Proof.
  rewrite !FloatAxioms.leb_spec.
  change (Prim2SF 0) with (S754_zero false).
  change (Prim2SF 1) with (S754_finite false 4503599627370496 (-52)).
  by destruct (Prim2SF p) as [[]|[]| |[] m e].
Qed.

End FloatSign.

(** ** Formatting to four decimals *)

Lemma string_app_assoc (a b c : string) : (a +:+ b +:+ c = (a +:+ b) +:+ c)%string.
Proof.
  induction a as [|x a IH]; [reflexivity|].
  change (String x (a +:+ b +:+ c) = String x ((a +:+ b) +:+ c))%string.
  by rewrite IH.
Qed.

Lemma digit_spec d :
  exists c, digit d = String c EmptyString /\ is_digit c = true.
Proof.
  unfold digit. eexists. split; [reflexivity|].
  pose proof (Z.mod_pos_bound d 10 ltac:(lia)) as Hd.
  unfold is_digit. rewrite Ascii.nat_ascii_embedding by lia.
  apply andb_true_iff. split; apply Nat.leb_le; lia.
Qed.

Lemma format_4f_four_decimals p :
  match Prim2SF p with
  | S754_zero _ | S754_finite _ _ _ => True
  | _ => False
  end ->
  four_decimals (format_4f p).
Proof.
  unfold format_4f. destruct (Prim2SF p) as [sg|sg| |sg m e]; try done; intros _.
  - exists ((if sg then "-" else EmptyString) +:+ "0")%string, "0"%char, "0"%char, "0"%char, "0"%char.
    split; [by destruct sg|done].
  - set (n := match e with
              | Zneg k => round_half_even (Zpos m * 10000) (2 ^ Zpos k)
              | _ => Zpos m * 2 ^ e * 10000
              end).
    destruct (digit_spec (n / 1000)) as (d1 & -> & H1).
    destruct (digit_spec (n / 100)) as (d2 & -> & H2).
    destruct (digit_spec (n / 10)) as (d3 & -> & H3).
    destruct (digit_spec n) as (d4 & -> & H4).
    exists ((if sg then "-" else EmptyString) +:+ pretty (n / 10000))%string, d1, d2, d3, d4.
    split; [|done]. rewrite <- string_app_assoc. reflexivity.
Qed.

(** ** The run loop *)

Lemma reachable_at_bounded T w :
  0 <= T -> reachable_at T w -> Z.of_nat (length (accumulated w)) <= T.
Proof.
  intros HT. induction 1 as [g|ui w Hw IH Hui]; [done|].
  pose proof (tick_accumulated ui w) as [_ H]. cbv zeta in H.
  pose proof (after_buttons_cases ui (session_state w)) as Hb.
  destruct (after_buttons ui (session_state w)) as [ds r]. cbn [fst snd] in H.
  assert (Hds : Z.of_nat (length ds) <= T).
  { destruct Hb as [-> | ->]; [done|exact IH]. }
  destruct H as [-> | (v & -> & _ & Hlt & _)]; [done|].
  rewrite length_app. cbn [length]. lia.
Qed.

Lemma p_value_in_unit_interval_witness :
  exists p,
    p_value [0.5; 0; -0.25]%float observed 3 = Ok p /\
    p = PrimFloat.div
          (float_of_int (extreme_count [0.5; 0; -0.25]%float observed))
          (float_of_int 3) /\
    PrimFloat.leb 0%float p = true /\ PrimFloat.leb p 1%float = true.
Proof.
  apply (p_value_in_unit_interval [0.5; 0; -0.25]%float observed);
    [discriminate|reflexivity].
Defined.

Lemma p_value_monotone_witness :
  exists p1 p2,
    p_value [0.5; 0; -0.25]%float 0.25%float 3 = Ok p1 /\
    p_value [0.5; 0; -0.25]%float (-0.5)%float 3 = Ok p2 /\
    PrimFloat.leb p2 p1 = true.
Proof.
  apply (p_value_monotone [0.5; 0; -0.25]%float 0.25%float (-0.5)%float);
    [discriminate|reflexivity|vm_compute; reflexivity].
Defined.

Lemma p_value_observed_zero_witness :
  extreme_count [0.5; 0; -0.25]%float 0%float = 3 /\
  p_value [0.5; 0; -0.25]%float 0%float 3 = Ok 1%float.
Proof.
  apply (p_value_observed_zero [0.5; 0; -0.25]%float);
    [discriminate|reflexivity|].
  repeat constructor.
Defined.

(** C7. In every reachable world a run renders the whole page without
    raising: an exception of the run is the sampler's.  The estimate,
    which on no value at all would be a division by zero, is computed
    only over a non-empty sequence: with no accumulated value no P-value
    metric is on the page, and otherwise the page carries the estimate
    formatted with exactly four decimals. *)
Theorem p_value_metric_guarded (ui : widgets) (w : world) :
  reachable w ->
  let ds := (after_buttons ui (session_state w)).1 in
  let shown := page (snd (tick ui w)) in
  p_value [] observed 0 = Raise ZeroDivisionError /\
  shown = rendered ui ds /\
  (forall e, fst (tick ui w) = Raise e -> statistic_of (random w) = Raise e) /\
  (ds = [] -> forall v, ~ In (Metric "P-value" v) shown) /\
  (ds <> [] ->
   exists p, p_value ds observed (Z.of_nat (length ds)) = Ok p /\
             In (Metric "P-value" (format_4f p)) shown /\
             (forall v, In (Metric "P-value" v) shown -> v = format_4f p) /\
             four_decimals (format_4f p)).
Proof.
  intros Hw ds shown.
  assert (Hshown : shown = rendered ui ds).
  { unfold shown, ds. rewrite tick_spec.
    destruct (after_buttons ui (session_state w)) as [ds' r]. cbn [fst].
    destruct (r && _); [destruct (statistic_of _)|]; reflexivity. }
  split_and!; [reflexivity|exact Hshown| | |].
  - intros e. rewrite tick_spec.
    destruct (after_buttons ui (session_state w)) as [ds' r].
    destruct (r && _); [destruct (statistic_of _)|]; cbn; congruence.
  - intros Hds v. rewrite Hshown, Hds. unfold rendered. cbn.
    intros [H|[H|[H|[]]]]; discriminate.
  - intros Hds.
    assert (Hlen : Z.of_nat (length ds) <= max_target).
    { pose proof (reachable_invariant w Hw) as [Hl _].
      pose proof (after_buttons_cases ui (session_state w)) as Hb.
      unfold ds. destruct (after_buttons ui (session_state w)) as [ds' r].
      cbn [fst]. destruct Hb as [-> | ->]; [done|exact Hl]. }
    pose proof (length_pos ds Hds) as Hpos.
    exists (ratio (extreme_count ds observed) (Z.of_nat (length ds))).
    split; [by apply p_value_ratio|].
    assert (E : (0 <? Z.of_nat (length ds)) = true) by (apply Z.ltb_lt; lia).
    rewrite Hshown. unfold rendered. rewrite E. split_and!.
    + cbn. auto.
    + cbn. intros v [H|[H|[H|[H|[]]]]]; congruence.
    + apply format_4f_four_decimals, unit_interval_finite;
        apply ratio_bounds;
        (apply extreme_count_bounds || (unfold max_target, exact_bound in *; lia)).
Qed.

Lemma p_value_metric_guarded_witness :
  let ds := (after_buttons ui_rerun (session_state world_started)).1 in
  let shown := page (snd (tick ui_rerun world_started)) in
  ds <> [] /\
  exists p, p_value ds observed (Z.of_nat (length ds)) = Ok p /\
            In (Metric "P-value" (format_4f p)) shown /\
            (forall v, In (Metric "P-value" v) shown -> v = format_4f p) /\
            four_decimals (format_4f p).
Proof.
  assert (Hne : (after_buttons ui_rerun (session_state world_started)).1 <> [])
    by (vm_compute; discriminate).
  split; [exact Hne|].
  apply (p_value_metric_guarded ui_rerun world_started
           (reachable_tick ui_start _ (reachable_fresh _))).
  exact Hne.
Defined.

(** C8. A run in which Reset was clicked leaves the session with no
    accumulated difference and the running flag cleared, both at once:
    the page of that very run is rendered over the empty sequence, and
    the run loop, reading the cleared flag, neither samples nor asks for
    a rerun. *)
Theorem reset_clears_both (ui : widgets) (w : world) :
  reset_clicked ui = true ->
  tick ui w =
  (Ok false,
   World (Session (Some []) (Some false)) (random w) (rendered ui [])).
Proof.
  intros Hr. rewrite tick_spec. unfold after_buttons. rewrite Hr. reflexivity.
Qed.

Lemma reset_clears_both_witness :
  tick ui_reset world_started =
  (Ok false,
   World (Session (Some []) (Some false)) (random world_started)
         (rendered ui_reset [])).
Proof. apply (reset_clears_both ui_reset world_started). reflexivity. Defined.

(** C9. A tick appends at most one value to the accumulated differences:
    the statistic just sampled, and only when the running flag is set and
    the count is below the target (nothing is appended when the sampler
    raises).  Hence, under ticks that all run with one target, the
    count never exceeds that target. *)
Theorem run_loop_bounded (ui : widgets) (w : world) :
  let ds := (after_buttons ui (session_state w)).1 in
  let r := (after_buttons ui (session_state w)).2 in
  let w' := snd (tick ui w) in
  (r = true -> Z.of_nat (length ds) < target_of ui ->
   forall v, statistic_of (random w) = Ok v -> accumulated w' = ds ++ [v]) /\
  (accumulated w' <> ds ->
   r = true /\ Z.of_nat (length ds) < target_of ui /\
   exists v, statistic_of (random w) = Ok v /\ accumulated w' = ds ++ [v]) /\
  (forall T w0, In T target_options -> reachable_at T w0 ->
   Z.of_nat (length (accumulated w0)) <= T).
Proof.
  intros ds r w'. split_and!.
  - intros Hr Hlt v Hv. unfold w', ds. unfold r, ds in Hr, Hlt.
    rewrite tick_spec.
    destruct (after_buttons ui (session_state w)) as [ds' r'].
    cbn [fst snd] in *. subst r'.
    apply Z.ltb_lt in Hlt. rewrite Hlt, Hv. reflexivity.
  - intros Hne. pose proof (tick_accumulated ui w) as [_ H]. cbv zeta in H.
    fold ds r w' in H. destruct H as [H | (v & H1 & H2 & H3 & H4)]; [done|].
    split_and!; [done..|]. by exists v.
  - intros T w0 HT Hw0. apply reachable_at_bounded; [|done].
    destruct HT as [H|[H|[H|[H|[H|[]]]]]]; rewrite <- H; lia.
Qed.

(** C10. The progress fraction is [min(1.0, current / target)], and for
    every count and every positive target it lies in [0, 1], also when
    the count exceeds the target. *)
Theorem progress_in_unit_interval (current target : Z) :
  0 <= current -> 0 < target ->
  exists p,
    progress_value current target = Ok p /\
    p = py_min 1%float
          (PrimFloat.div (float_of_int current) (float_of_int target)) /\
    PrimFloat.leb 0%float p = true /\ PrimFloat.leb p 1%float = true.
Proof.
  intros Hc Ht. unfold progress_value, py_true_div.
  destruct (Z.eqb_spec target 0) as [->|_]; [lia|].
  eexists. split; [reflexivity|]. split; [reflexivity|].
  apply py_min_one_bounds, div_sign; apply float_of_int_sign; lia.
Qed.

Lemma progress_in_unit_interval_witness :
  exists p,
    progress_value 5000 100 = Ok p /\
    p = py_min 1%float
          (PrimFloat.div (float_of_int 5000) (float_of_int 100)) /\
    PrimFloat.leb 0%float p = true /\ PrimFloat.leb p 1%float = true.
Proof. apply (progress_in_unit_interval 5000 100); lia. Defined.

(** The first element a run renders is that progress fraction. *)
Lemma tick_renders_progress ui w :
  exists p rest,
    progress_value (Z.of_nat (length (after_buttons ui (session_state w)).1))
                   (target_of ui) = Ok p /\
    page (snd (tick ui w)) = Progress p :: rest.
Proof.
  pose proof (target_of_bounds ui) as Ht.
  unfold progress_value, py_true_div.
  destruct (Z.eqb_spec (target_of ui) 0) as [E|_]; [lia|].
  rewrite tick_spec. destruct (after_buttons ui (session_state w)) as [ds r].
  do 2 eexists. split; [reflexivity|]. cbn [fst].
  destruct (r && _); [destruct (statistic_of _)|]; reflexivity.
Qed.

(** ** The tally: conservation, missing keys, order *)

Lemma key_of_sex_arm (s a : string) (c1 c2 c3 : ascii) :
  c1 <> "_"%char -> c2 <> "_"%char -> c3 <> "_"%char ->
  key_of (s, a) = String c1 (String "_" (String c2 (String c3 EmptyString))) ->
  s = String c1 EmptyString /\ a = String c2 (String c3 EmptyString).
Proof.
  intros H1 H2 H3. unfold key_of. cbn [fst snd].
  destruct s as [|x [|y [|z [|u [|v s]]]]]; cbv [String.append];
    intros E; simplify_eq; done.
Qed.

Lemma lookup_counts_map_valid a b c d t v :
  counts_map a b c d !! key_of t = Some v -> valid_trial t.
Proof.
  unfold counts_map. destruct t as [s r]. intros H.
  repeat (apply lookup_insert_Some in H as [[H _]|[_ H]];
          [symmetry in H; apply key_of_sex_arm in H as [-> ->]; [|done..];
           split; cbn; auto|]).
  apply lookup_singleton_Some in H as [H _].
  symmetry in H. apply key_of_sex_arm in H as [-> ->]; [|done..].
  split; cbn; auto.
Qed.

Lemma getitem_invalid a b c d t :
  ~ valid_trial t -> counts_map a b c d !! key_of t = None.
Proof.
  intros Hn. destruct (counts_map a b c d !! key_of t) as [v|] eqn:E; [|done].
  by apply lookup_counts_map_valid in E.
Qed.

Lemma count_frequencies_invalid pre : forall t post a b c d,
  Forall valid_trial pre -> ~ valid_trial t ->
  count_frequencies (pre ++ t :: post) (counts_map a b c d) =
  Raise (KeyError (key_of t)).
Proof.
  induction pre as [|p pre IH]; intros t post a b c d Hpre Ht.
  - cbn [app count_frequencies]. unfold increment, getitem.
    by rewrite getitem_invalid.
  - apply Forall_cons in Hpre as [Hp Hpre].
    cbn [app count_frequencies]. rewrite increment_counts_map by done.
    by apply IH.
Qed.

Lemma first_invalid (samples : list trial) :
  Forall valid_trial samples \/
  exists pre t post, samples = pre ++ t :: post /\
                     Forall valid_trial pre /\ ~ valid_trial t.
Proof.
  induction samples as [|t samples IH]; [left; constructor|].
  destruct (decide (valid_trial t)) as [Ht|Ht].
  - destruct IH as [IH|(pre & u & post & -> & Hpre & Hu)].
    + left. by constructor.
    + right. exists (t :: pre), u, post. split_and!; [done| |done].
      by constructor.
  - right. exists [], t, samples. split_and!; [done|constructor|done].
Qed.



(** X2. The dictionary has a key for each of the four (sex, arm) labels
    and for no other: the counting loop returns exactly on the sequences
    of valid trials, and on any other sequence it raises [KeyError] with
    the key of the first trial whose label is not one of the four. *)
Theorem count_frequencies_key_error (samples : list trial) :
  (Forall valid_trial samples <->
   exists counts, count_frequencies samples initial_counts = Ok counts) /\
  (forall pre t post,
     samples = pre ++ t :: post -> Forall valid_trial pre ->
     ~ valid_trial t ->
     count_frequencies samples initial_counts = Raise (KeyError (key_of t))).
Proof.
  change initial_counts with (counts_map 0 0 0 0). split.
  - split.
    + intros Hv. rewrite count_frequencies_spec by done. by eexists.
    + intros [m Hm].
      destruct (first_invalid samples)
        as [Hv|(pre & t & post & -> & Hpre & Ht)]; [done|].
      rewrite count_frequencies_invalid in Hm by done. discriminate.
  - intros pre t post -> Hpre Ht. by apply count_frequencies_invalid.
Qed.

(** ** Which batches make the sampler raise *)

Lemma group_size_trials_from t sex n : forall c,
  group_size sex (trials_from t c n) = 0 <->
  forall i, (i < n)%nat -> pick ["M"; "F"]%string (t (c + 2 * i)%nat) <> sex.
Proof.
  induction n as [|n IH]; intros c.
  - split; [intros _ i Hi; lia|reflexivity].
  - cbn [trials_from]. rewrite group_size_cons. cbn [fst].
    assert (Hnn : 0 <= group_size sex (trials_from t (S (S c)) n))
      by (unfold group_size; lia).
    split.
    + intros H i Hi. case_decide as Hd; [lia|].
      destruct i as [|i].
      * by rewrite Nat.mul_0_r, Nat.add_0_r.
      * replace (c + 2 * S i)%nat with (S (S c) + 2 * i)%nat by lia.
        apply IH; lia.
    + intros H. case_decide as Hd.
      * exfalso. apply (H 0%nat); [lia|].
        by rewrite Nat.mul_0_r, Nat.add_0_r.
      * rewrite Z.add_0_l. apply IH. intros i Hi.
        replace (S (S c) + 2 * i)%nat with (c + 2 * S i)%nat by lia.
        apply H. lia.
Qed.

(** X3. The sampler raises exactly when the 54 sex draws of the batch
    all agree, that is when every trial is male or every trial is
    female; the arm draws play no part in it. *)
Theorem generate_sample_raises_iff_one_sex (w : world) :
  let t := tape (random w) in
  let c := cursor (random w) in
  fst (generate_sample w) = Raise ZeroDivisionError <->
  (forall i, (i < 54)%nat -> t (c + 2 * i)%nat = t c).
Proof.
  intros t c.
  assert (Hcases : fst (generate_sample w) = Raise ZeroDivisionError <->
                   group_size "M" (batch (random w)) = 0 \/
                   group_size "F" (batch (random w)) = 0).
  { destruct (generate_sample_cases w) as [[H0 Hr]|[[Hm Hf] (v & Hv & _)]].
    - by split.
    - split; [congruence|]. intros [H0|H0]; lia. }
  rewrite Hcases. unfold batch. fold t c.
  rewrite !group_size_trials_from. change sample_size with 54%nat.
  split.
  - intros [H|H] i Hi.
    + pose proof (H i Hi) as Hi'. pose proof (H 0%nat ltac:(lia)) as H0.
      rewrite Nat.mul_0_r, Nat.add_0_r in H0. rewrite pick_sex in Hi', H0.
      by destruct (t (c + 2 * i)%nat), (t c).
    + pose proof (H i Hi) as Hi'. pose proof (H 0%nat ltac:(lia)) as H0.
      rewrite Nat.mul_0_r, Nat.add_0_r in H0. rewrite pick_sex in Hi', H0.
      by destruct (t (c + 2 * i)%nat), (t c).
  - intros H. destruct (t c) eqn:E.
    + left. intros i Hi. rewrite pick_sex, (H i Hi). done.
    + right. intros i Hi. rewrite pick_sex, (H i Hi). done.
Qed.

(** ** Symmetries of the statistic *)

Lemma count_Permutation sex arm (l1 l2 : list trial) :
  l1 ≡ₚ l2 -> count sex arm l1 = count sex arm l2.
Proof. intros H. unfold count. by rewrite H. Qed.

(** X4. The tally, and with it the outcome of the sampler, does not
    depend on the order of the trials: two batches that are permutations
    of each other give the same table and the same statistic (or the
    same exception). *)
Theorem generate_sample_order_independent (w1 w2 : world) :
  batch (random w1) ≡ₚ batch (random w2) ->
  count_frequencies (batch (random w1)) initial_counts =
    count_frequencies (batch (random w2)) initial_counts /\
  fst (generate_sample w1) = fst (generate_sample w2).
Proof.
  intros H. change initial_counts with (counts_map 0 0 0 0).
  rewrite !count_frequencies_spec by apply batch_valid.
  rewrite !generate_sample_spec. cbn [fst].
  by rewrite !(count_Permutation _ _ _ _ H).
Qed.

Lemma generate_sample_order_independent_witness :
  count_frequencies (batch (Rng mixed_tape 0)) initial_counts =
    count_frequencies (batch (Rng swapped_tape 0)) initial_counts /\
  fst (generate_sample (fresh (Rng mixed_tape 0))) =
    fst (generate_sample (fresh (Rng swapped_tape 0))).
Proof.
  apply (generate_sample_order_independent
           (fresh (Rng mixed_tape 0)) (fresh (Rng swapped_tape 0))).
  vm_compute. apply perm_swap.
Defined.

Lemma tables_antisymmetric_54 : tables_antisymmetric sample_size = true.
Proof. vm_compute. reflexivity. Qed.

Lemma tables_antisymmetric_spec n m_sx m_dx f_sx f_dx :
  tables_antisymmetric n = true ->
  0 <= m_sx -> 0 <= m_dx -> 0 <= f_sx -> 0 <= f_dx ->
  m_sx + m_dx + f_sx + f_dx = Z.of_nat n ->
  match proportion_difference m_sx m_dx f_sx f_dx,
        proportion_difference f_sx f_dx m_sx m_dx with
  | Ok v, Ok v' => PrimFloat.eqb v' (PrimFloat.opp v) = true
  | Raise _, Raise _ => True
  | _, _ => False
  end.
Proof.
  intros H Ha Hb Hc Hd Hsum. unfold tables_antisymmetric in H.
  assert (Hn : Z.of_nat (S n) = Z.of_nat n + 1) by apply Nat2Z.inj_succ.
  rewrite forallb_forall in H. specialize (H m_sx (in_range (S n) m_sx ltac:(lia))).
  rewrite forallb_forall in H. specialize (H m_dx (in_range (S n) m_dx ltac:(lia))).
  rewrite forallb_forall in H. specialize (H f_sx (in_range (S n) f_sx ltac:(lia))).
  cbv zeta in H.
  replace (Z.of_nat n - m_sx - m_dx - f_sx) with f_dx in H by lia.
  apply orb_true_iff in H as [H|H]; [lia|].
  destruct (proportion_difference m_sx m_dx f_sx f_dx),
           (proportion_difference f_sx f_dx m_sx m_dx); done.
Qed.

Lemma trials_from_flip t c n : forall j,
  trials_from (flip_sexes t c) (c + 2 * j) n =
  map swap_sex (trials_from t (c + 2 * j) n).
Proof.
  induction n as [|n IH]; intros j; [reflexivity|].
  cbn [trials_from map]. f_equal.
  - unfold flip_sexes, swap_sex. cbn [fst snd].
    replace (c + 2 * j - c)%nat with (2 * j)%nat by lia.
    replace (S (c + 2 * j) - c)%nat with (S (2 * j)) by lia.
    rewrite Nat.even_succ, Nat.odd_mul. cbn [Nat.odd negb andb].
    replace (Nat.even (2 * j)) with true
      by (symmetry; rewrite Nat.even_mul; reflexivity).
    rewrite !pick_sex. by destruct (t (c + 2 * j)%nat).
  - replace (S (S (c + 2 * j))) with (c + 2 * S j)%nat by lia. apply IH.
Qed.

Lemma count_swap_sex arm (samples : list trial) :
  Forall valid_trial samples ->
  count "M" arm (map swap_sex samples) = count "F" arm samples /\
  count "F" arm (map swap_sex samples) = count "M" arm samples.
Proof.
  induction 1 as [|[s a] samples [Hs _] _ [IH1 IH2]]; [done|].
  cbn [map]. rewrite !count_cons, IH1, IH2. unfold swap_sex. cbn [fst snd] in *.
  destruct Hs as [-> | ->]; split; repeat case_decide; simplify_eq; lia.
Qed.

(** X5. Exchanging the two sexes in every trial of the batch negates
    the statistic: on the tape with every sex draw flipped the sampler
    draws the same trials with "M" and "F" exchanged, returns a value
    numerically equal to the negation of the original one, and raises
    exactly when the original run raises. *)
Theorem generate_sample_swap_sexes (w : world) :
  let g := random w in
  let w' := World (session_state w)
                  (Rng (flip_sexes (tape g) (cursor g)) (cursor g)) (page w) in
  batch (random w') = map swap_sex (batch g) /\
  match fst (generate_sample w), fst (generate_sample w') with
  | Ok v, Ok v' => PrimFloat.eqb v' (PrimFloat.opp v) = true
  | Raise e, Raise e' => e = ZeroDivisionError /\ e' = ZeroDivisionError
  | _, _ => False
  end.
Proof.
  intros g w'.
  assert (Hb : batch (random w') = map swap_sex (batch g)).
  { unfold batch, w'. cbn [random tape cursor].
    pose proof (trials_from_flip (tape g) (cursor g) sample_size 0) as H.
    by rewrite Nat.mul_0_r, Nat.add_0_r in H. }
  split; [exact Hb|].
  pose proof (generate_sample_cases w) as Hc.
  pose proof (generate_sample_cases w') as Hc'.
  rewrite !generate_sample_spec in *. cbn [fst] in *. cbv zeta in Hc, Hc'.
  fold g in Hc |- *. rewrite Hb in Hc' |- *.
  pose proof (batch_valid g) as Hv.
  destruct (count_swap_sex "Sx" (batch g) Hv) as [S1 S2].
  destruct (count_swap_sex "Dx" (batch g) Hv) as [D1 D2].
  rewrite S1, S2, D1, D2 in *.
  pose proof (counts_total (batch g) Hv) as Hsum.
  rewrite batch_length in Hsum.
  pose proof (tables_antisymmetric_spec sample_size
                (count "M" "Sx" (batch g)) (count "M" "Dx" (batch g))
                (count "F" "Sx" (batch g)) (count "F" "Dx" (batch g))
                tables_antisymmetric_54
                (count_nonneg _ _ _) (count_nonneg _ _ _)
                (count_nonneg _ _ _) (count_nonneg _ _ _) Hsum) as H.
  destruct (proportion_difference (count "M" "Sx" (batch g)) _ _ _) as [v|e],
           (proportion_difference (count "F" "Sx" (batch g)) _ _ _) as [v'|e'];
    try done.
  destruct Hc as [[_ Hc]|[_ (? & Hc & _)]]; [|discriminate].
  destruct Hc' as [[_ Hc']|[_ (? & Hc' & _)]]; [|discriminate].
  split; congruence.
Qed.

(** ** Symmetries of the estimate *)

Lemma abs_opp x : PrimFloat.abs (PrimFloat.opp x) = PrimFloat.abs x.
Proof.
  apply Prim2SF_inj. rewrite !FloatAxioms.abs_spec, FloatAxioms.opp_spec.
  by destruct (Prim2SF x).
Qed.

Lemma SFcompare_antisym x y :
  SFcompare y x =
  match SFcompare x y with Some c => Some (CompOpp c) | None => None end.
Proof.
  unfold SFcompare.
  destruct x as [[]|[]| |[] mx ex], y as [[]|[]| |[] my ey]; try reflexivity.
  all: change (Pos.compare_cont Eq) with Pos.compare.
  all: rewrite (Z.compare_antisym ex ey), (Pos.compare_antisym mx my).
  all: destruct (ex ?= ey); cbn; try reflexivity.
  all: by destruct (mx ?= my)%positive.
Qed.

Lemma SFcompare_opp x y :
  SFcompare (SFopp x) (SFopp y) = SFcompare y x.
Proof.
  rewrite (SFcompare_antisym x y). unfold SFcompare, SFopp.
  destruct x as [[]|[]| |[] mx ex], y as [[]|[]| |[] my ey]; try reflexivity.
  all: cbn [negb].
  all: destruct (ex ?= ey); cbn; try reflexivity.
  all: by destruct (Pos.compare_cont Eq mx my).
Qed.

(** X6. The estimate is two-sided: it is the same for [observed_diff]
    and for [-observed_diff], and the same when every value is
    negated. *)
Theorem p_value_two_sided (values : list float) (observed_diff : float) (n : Z) :
  p_value values (PrimFloat.opp observed_diff) n = p_value values observed_diff n /\
  p_value (map PrimFloat.opp values) observed_diff n =
    p_value values observed_diff n.
Proof.
  unfold p_value. split.
  - by rewrite abs_opp.
  - rewrite map_map. do 2 f_equal. apply map_ext. intros d.
    by rewrite abs_opp.
Qed.

(** X7. The estimate does not depend on the order in which the values
    were accumulated. *)
Theorem p_value_order_independent (values values' : list float)
    (observed_diff : float) :
  values ≡ₚ values' ->
  p_value values observed_diff (Z.of_nat (length values)) =
  p_value values' observed_diff (Z.of_nat (length values')).
Proof.
  intros H. unfold p_value. rewrite !py_sum_extreme. unfold extreme_count.
  by rewrite H.
Qed.

Lemma p_value_order_independent_witness :
  p_value [0.5; 0; -0.25]%float observed 3 =
  p_value [0; 0.5; -0.25]%float observed 3.
Proof.
  apply (p_value_order_independent [0.5; 0; -0.25]%float
           [0; 0.5; -0.25]%float observed).
  apply perm_swap.
Defined.

(** ** Rounding never merges two counts *)

(** The rounded quotient is within one half of the exact one. *)
Lemma rhe_near a b :
  0 < b ->
  2 * a - b <= 2 * (round_half_even a b * b) <= 2 * a + b.
Proof.
  intros Hb. unfold round_half_even.
  pose proof (Z.div_mod a b ltac:(lia)) as Hdm.
  pose proof (Z.mod_pos_bound a b Hb) as Hr.
  destruct (Z.compare_spec (2 * (a mod b)) b);
    [destruct (Z.even (a / b))|..]; nia.
Qed.

(** The order of two floats [finish N e], read off their values scaled
    by [2^105]. *)
Lemma SFltb_finish N1 e1 N2 e2 :
  2 ^ 52 <= N1 <= 2 ^ 53 -> 2 ^ 52 <= N2 <= 2 ^ 53 ->
  0 <= e1 + 105 -> 0 <= e2 + 105 ->
  N1 * 2 ^ (e1 + 105) < N2 * 2 ^ (e2 + 105) ->
  SFltb (finish N1 e1) (finish N2 e2) = true.
Proof.
  intros H1 H2 He1 He2 Hlt.
  assert (P53 : 2 ^ 53 = 2 * 2 ^ 52) by reflexivity.
  assert (Hcmp : e1 < e2 /\ (e1 + 1 = e2 -> N1 < 2 * N2) \/ e1 = e2 /\ N1 < N2).
  { destruct (Z.lt_trichotomy e1 e2) as [H|[H|H]].
    - left. split; [done|]. intros <-.
      replace (e1 + 1 + 105) with (Z.succ (e1 + 105)) in Hlt by lia.
      rewrite Z.pow_succ_r in Hlt by lia.
      assert (0 < 2 ^ (e1 + 105)) by (apply Z.pow_pos_nonneg; lia). nia.
    - right. split; [done|]. subst e2.
      assert (0 < 2 ^ (e1 + 105)) by (apply Z.pow_pos_nonneg; lia). nia.
    - exfalso.
      replace (e1 + 105) with (e2 + 105 + (e1 - e2)) in Hlt by lia.
      rewrite Z.pow_add_r in Hlt by lia.
      assert (0 < 2 ^ (e2 + 105)) by (apply Z.pow_pos_nonneg; lia).
      assert (2 ^ 1 <= 2 ^ (e1 - e2)) by (apply Z.pow_le_mono_r; lia).
      change (2 ^ 1) with 2 in *.
      set (P := 2 ^ (e2 + 105)) in *. set (D := 2 ^ (e1 - e2)) in *.
      assert (N2 <= N1 * D) by nia.
      assert (N2 * P <= N1 * D * P) by (apply Z.mul_le_mono_nonneg_r; lia).
      lia. }
  clear Hlt. unfold finish, SFltb, SFcompare.
  change (Pos.compare_cont Eq) with Pos.compare.
  destruct (Z.eqb_spec N1 (2 ^ 53)), (Z.eqb_spec N2 (2 ^ 53)).
  all: match goal with
       | |- context [?x ?= ?y] => destruct (Z.compare_spec x y)
       end; try lia; try reflexivity.
  all: match goal with
       | |- context [(?x ?= ?y)%positive] => destruct (Pos.compare_spec x y)
       end; try lia; try reflexivity.
Qed.

(** The float [k / n] of two counts is within one half, at the scale
    of [n], of the count [k]: read at the scale [2^105],
    [|q * n - k| < 1/2]. *)
Lemma quotient_near k n :
  0 < k <= n -> n < 2 ^ 53 ->
  exists N E,
    quotient (mantissa k) (exponent k) (mantissa n) (exponent n) =
      finish N E /\
    2 ^ 52 <= N <= 2 ^ 53 /\ 0 <= E + 105 /\
    (2 * k - 1) * 2 ^ 105 < 2 * (N * 2 ^ (E + 105)) * n
      < (2 * k + 1) * 2 ^ 105.
Proof.
  intros Hk Hn.
  pose proof (Zdigits2_le_53 k ltac:(lia)) as Hdk.
  pose proof (Zdigits2_le_53 n ltac:(lia)) as Hdn.
  pose proof (Zdigits2_mono k n ltac:(lia)) as Hd.
  pose proof (mantissa_bounds k ltac:(lia)) as Hmk.
  pose proof (mantissa_bounds n ltac:(lia)) as Hmn.
  pose proof (quotient_range (mantissa n) Hmn (mantissa k) 0 Hmk) as [R1 R2].
  set (c := Zdigits2 n - Zdigits2 k).
  set (B := 2 ^ (53 - Zdigits2 n)). set (C := 2 ^ c).
  assert (HB : 0 < B) by (apply Z.pow_pos_nonneg; lia).
  assert (HC : 0 < C) by (apply Z.pow_pos_nonneg; lia).
  assert (HA : 2 ^ (53 - Zdigits2 k) = B * C).
  { unfold B, C, c. rewrite <- Z.pow_add_r by lia. f_equal. lia. }
  assert (Hk' : mantissa k = k * (B * C)) by (unfold mantissa; by rewrite HA).
  assert (Hn' : mantissa n = n * B) by reflexivity.
  assert (P105 : 2 ^ 105 = 2 ^ 52 * 2 ^ 53) by reflexivity.
  assert (P53 : 2 ^ 53 = 2 * 2 ^ 52) by reflexivity.
  unfold quotient. destruct (Z.ltb_spec (mantissa k) (mantissa n)) as [Hlt|Hge].
  - set (N := round_half_even (mantissa k * 2 ^ 53) (mantissa n)).
    exists N, (exponent k - exponent n - 53).
    split; [reflexivity|]. split; [by apply R1|]. unfold exponent.
    split; [lia|].
    replace (Zdigits2 k - 53 - (Zdigits2 n - 53) - 53 + 105) with (52 - c)
      by (unfold c; lia).
    set (Q := 2 ^ (52 - c)).
    assert (HQ : 0 < Q) by (apply Z.pow_pos_nonneg; unfold c; lia).
    assert (HCQ : C * Q = 2 ^ 52).
    { unfold C, Q. rewrite <- Z.pow_add_r by (unfold c; lia). f_equal. lia. }
    pose proof (rhe_near (mantissa k * 2 ^ 53) (mantissa n) ltac:(lia)) as Hnear.
    fold N in Hnear. rewrite Hk', Hn' in Hnear.
    assert (H1 : 2 * (k * C * 2 ^ 53) - n <= 2 * (N * n) <=
                 2 * (k * C * 2 ^ 53) + n).
    { split; apply (Z.mul_le_mono_pos_r _ _ B HB); lia. }
    assert (H2 : (2 * (k * C * 2 ^ 53) - n) * Q <= 2 * (N * n) * Q <=
                 (2 * (k * C * 2 ^ 53) + n) * Q).
    { split; apply Z.mul_le_mono_nonneg_r; lia. }
    assert (HkCQ : k * C * Q = k * 2 ^ 52) by (rewrite <- HCQ; ring).
    assert (HnQ : n * Q < 2 ^ 105).
    { assert (Q <= 2 ^ 52) by nia.
      assert (n * Q <= n * 2 ^ 52) by (apply Z.mul_le_mono_nonneg_l; lia).
      lia. }
    lia.
  - set (N := round_half_even (mantissa k * 2 ^ 53) (2 * mantissa n)).
    exists N, (exponent k - exponent n - 52).
    split; [reflexivity|]. split; [by apply R2|]. unfold exponent.
    split; [lia|].
    replace (Zdigits2 k - 53 - (Zdigits2 n - 53) - 52 + 105) with (53 - c)
      by (unfold c; lia).
    destruct (Z.eq_dec k n) as [->|Hne].
    + assert (c = 0) as -> by (unfold c; lia).
      assert (N = 2 ^ 52) as ->.
      { unfold N.
        replace (mantissa n * 2 ^ 53) with (2 ^ 52 * (2 * mantissa n)) by lia.
        apply rhe_exact. lia. }
      change (53 - 0) with 53. lia.
    + assert (Hc : 1 <= c).
      { unfold c. destruct (Z.eq_dec (Zdigits2 k) (Zdigits2 n)) as [E|]; [|lia].
        exfalso. unfold mantissa in Hge. rewrite E in Hge.
        assert (0 < 2 ^ (53 - Zdigits2 n)) by (apply Z.pow_pos_nonneg; lia).
        nia. }
      set (Q := 2 ^ (53 - c)).
      assert (HQ : 0 < Q) by (apply Z.pow_pos_nonneg; unfold c; lia).
      assert (HCQ : C * Q = 2 ^ 53).
      { unfold C, Q. rewrite <- Z.pow_add_r by (unfold c; lia). f_equal. lia. }
      assert (HQ52 : Q <= 2 ^ 52).
      { unfold Q. apply Z.pow_le_mono_r; lia. }
      pose proof (rhe_near (mantissa k * 2 ^ 53) (2 * mantissa n) ltac:(lia))
        as Hnear.
      fold N in Hnear. rewrite Hk', Hn' in Hnear.
      assert (H1 : k * C * 2 ^ 53 - n <= 2 * (N * n) <=
                   k * C * 2 ^ 53 + n).
      { split; apply (Z.mul_le_mono_pos_r _ _ B HB); lia. }
      assert (H2 : (k * C * 2 ^ 53 - n) * Q <= 2 * (N * n) * Q <=
                   (k * C * 2 ^ 53 + n) * Q).
      { split; apply Z.mul_le_mono_nonneg_r; lia. }
      assert (HkCQ : k * C * Q = k * 2 ^ 53) by (rewrite <- HCQ; ring).
      assert (HnQ : n * Q < 2 ^ 105).
      { assert (n * Q <= n * 2 ^ 52) by (apply Z.mul_le_mono_nonneg_l; lia).
        lia. }
      lia.
Qed.

(** The quotient strictly increases with the numerator, up to the
    denominator: two different counts never round to the same float. *)
Lemma ratio_lt k k' n :
  0 <= k < k' -> k' <= n -> n < exact_bound ->
  PrimFloat.ltb (ratio k n) (ratio k' n) = true.
Proof.
  intros Hk Hk' Hn. unfold exact_bound in Hn.
  rewrite FloatAxioms.ltb_spec.
  rewrite (ratio_spec k' n) by (unfold exact_bound; lia).
  destruct (quotient_near k' n ltac:(lia) Hn) as (N' & E' & -> & HN' & HE' & Hv').
  destruct (Z.eq_dec k 0) as [->|Hk0].
  - rewrite ratio_zero by (unfold exact_bound; lia).
    unfold finish. by destruct (N' =? 2 ^ 53).
  - rewrite (ratio_spec k n) by (unfold exact_bound; lia).
    destruct (quotient_near k n ltac:(lia) Hn) as (N & E & -> & HN & HE & Hv).
    apply SFltb_finish; try done.
    assert (H : 2 * (N * 2 ^ (E + 105)) * n < 2 * (N' * 2 ^ (E' + 105)) * n).
    { assert ((2 * k + 1) * 2 ^ 105 <= (2 * k' - 1) * 2 ^ 105)
        by (apply Z.mul_le_mono_nonneg_r; lia).
      lia. }
    apply (Z.mul_lt_mono_pos_r (2 * n)); [lia|]. lia.
Qed.

Lemma ltb_irrefl x : PrimFloat.ltb x x = false.
Proof.
  rewrite FloatAxioms.ltb_spec. unfold SFltb.
  destruct (Prim2SF x) as [[]|[]| |[] m e] eqn:E; try reflexivity.
  all: rewrite SFcompare_refl; done.
Qed.

Lemma ratio_inj k k' n :
  0 <= k <= n -> 0 <= k' <= n -> n < exact_bound ->
  ratio k n = ratio k' n -> k = k'.
Proof.
  intros Hk Hk' Hn E.
  destruct (Z.lt_trichotomy k k') as [H|[H|H]]; [|done|].
  - pose proof (ratio_lt k k' n ltac:(lia) ltac:(lia) Hn) as Hlt.
    rewrite E, ltb_irrefl in Hlt. discriminate.
  - pose proof (ratio_lt k' k n ltac:(lia) ltac:(lia) Hn) as Hlt.
    rewrite E, ltb_irrefl in Hlt. discriminate.
Qed.

Lemma leb_ltb_false x y :
  PrimFloat.leb x y = true -> PrimFloat.ltb y x = false.
Proof.
  rewrite FloatAxioms.leb_spec, FloatAxioms.ltb_spec. unfold SFleb, SFltb.
  rewrite (SFcompare_antisym (Prim2SF x) (Prim2SF y)).
  by destruct (SFcompare (Prim2SF x) (Prim2SF y)) as [[]|].
Qed.

Lemma ratio_zero_float n : 0 < n < exact_bound -> ratio 0 n = 0%float.
Proof. intros Hn. apply Prim2SF_inj. by rewrite ratio_zero. Qed.

(** [k / n] is below [1.0] exactly when [k < n]. *)
Lemma ratio_lt_one k n :
  0 <= k < exact_bound -> 0 < n < exact_bound ->
  PrimFloat.ltb (ratio k n) 1%float = true <-> k < n.
Proof.
  intros Hk Hn. rewrite <- (ratio_full n Hn). split.
  - intros H. destruct (Z_lt_le_dec k n) as [|Hge]; [done|].
    pose proof (ratio_mono n k n ltac:(lia) ltac:(lia) Hn) as Hle.
    apply leb_ltb_false in Hle. congruence.
  - intros H. apply ratio_lt; lia.
Qed.

Lemma progress_value_spec c T :
  0 < T -> progress_value c T = Ok (py_min 1%float (ratio c T)).
Proof.
  intros HT. unfold progress_value, py_true_div.
  destruct (Z.eqb_spec T 0); [lia|reflexivity].
Qed.

Lemma py_min_one_ratio c T :
  0 <= c < exact_bound -> 0 < T < exact_bound ->
  py_min 1%float (ratio c T) = if c <? T then ratio c T else 1%float.
Proof.
  intros Hc HT. unfold py_min.
  destruct (Z.ltb_spec c T) as [Hlt|Hge].
  - by rewrite (proj2 (ratio_lt_one c T Hc HT) Hlt).
  - destruct (PrimFloat.ltb (ratio c T) 1) eqn:E; [|done].
    apply (ratio_lt_one c T Hc HT) in E. lia.
Qed.

(** X8. On a non-empty sequence of fewer than [2^53] values the
    estimate is exactly [0.0] only when no value is at least as extreme
    as the observed difference, and exactly [1.0] only when every value
    is. *)
Theorem p_value_extremes (values : list float) (observed_diff : float) :
  values <> [] ->
  Z.of_nat (length values) < exact_bound ->
  let n := Z.of_nat (length values) in
  (p_value values observed_diff n = Ok 0%float <->
   extreme_count values observed_diff = 0) /\
  (p_value values observed_diff n = Ok 1%float <->
   extreme_count values observed_diff = n).
Proof.
  intros Hne Hmax n. unfold n. rewrite p_value_ratio by done.
  pose proof (length_pos values Hne) as Hpos.
  pose proof (extreme_count_bounds values observed_diff) as Hc.
  split; split.
  - intros [= E]. rewrite <- (ratio_zero_float (Z.of_nat (length values))) in E by lia.
    apply ratio_inj in E; (done || lia).
  - intros ->. f_equal. apply ratio_zero_float. lia.
  - intros [= E]. rewrite <- (ratio_full (Z.of_nat (length values))) in E by lia.
    apply ratio_inj in E; (done || lia).
  - intros ->. f_equal. apply ratio_full. lia.
Qed.

Lemma p_value_extremes_witness :
  (p_value [0.5; 0; -0.25]%float observed 3 = Ok 0%float <->
   extreme_count [0.5; 0; -0.25]%float observed = 0) /\
  (p_value [0.5; 0; -0.25]%float observed 3 = Ok 1%float <->
   extreme_count [0.5; 0; -0.25]%float observed = 3).
Proof.
  apply (p_value_extremes [0.5; 0; -0.25]%float observed);
    [discriminate|reflexivity].
Defined.

(** X9. On a non-empty sequence of fewer than [2^53] values rounding
    never merges two counts: the estimates for two observed differences
    are equal exactly when as many values are at least as extreme as the
    one as are as the other, and the first is strictly below the second
    exactly when its count is. *)
Theorem p_value_determines_count (values : list float) (o1 o2 : float) :
  values <> [] ->
  Z.of_nat (length values) < exact_bound ->
  exists p1 p2,
    p_value values o1 (Z.of_nat (length values)) = Ok p1 /\
    p_value values o2 (Z.of_nat (length values)) = Ok p2 /\
    (p1 = p2 <-> extreme_count values o1 = extreme_count values o2) /\
    (PrimFloat.ltb p1 p2 = true <->
     extreme_count values o1 < extreme_count values o2).
Proof.
  intros Hne Hmax. do 2 eexists.
  split; [by apply p_value_ratio|]. split; [by apply p_value_ratio|].
  pose proof (length_pos values Hne) as Hpos.
  pose proof (extreme_count_bounds values o1) as H1.
  pose proof (extreme_count_bounds values o2) as H2.
  split; split.
  - intros E. apply ratio_inj in E; (done || lia).
  - by intros ->.
  - intros Hlt.
    destruct (Z_lt_le_dec (extreme_count values o1) (extreme_count values o2))
      as [|Hge]; [done|].
    pose proof (ratio_mono (extreme_count values o2) (extreme_count values o1)
                  (Z.of_nat (length values)) ltac:(lia) ltac:(lia) ltac:(lia))
      as Hle.
    apply leb_ltb_false in Hle. congruence.
  - intros Hlt. apply ratio_lt; lia.
Qed.

Lemma p_value_determines_count_witness :
  exists p1 p2,
    p_value [0.5; 0; -0.25]%float 0.5%float 3 = Ok p1 /\
    p_value [0.5; 0; -0.25]%float 0.25%float 3 = Ok p2 /\
    (p1 = p2 <-> extreme_count [0.5; 0; -0.25]%float 0.5%float =
                 extreme_count [0.5; 0; -0.25]%float 0.25%float) /\
    (PrimFloat.ltb p1 p2 = true <->
     extreme_count [0.5; 0; -0.25]%float 0.5%float <
     extreme_count [0.5; 0; -0.25]%float 0.25%float).
Proof.
  apply (p_value_determines_count [0.5; 0; -0.25]%float 0.5%float 0.25%float);
    [discriminate|reflexivity].
Defined.

(** X10. The progress fraction is [1.0] exactly when the count has
    reached the target, and it never decreases as the count grows
    (counts and targets below [2^53]). *)
Theorem progress_full_iff_target_reached (current target : Z) :
  0 <= current < exact_bound -> 0 < target < exact_bound ->
  (progress_value current target = Ok 1%float <-> target <= current) /\
  (forall later, current <= later < exact_bound ->
     exists p p',
       progress_value current target = Ok p /\
       progress_value later target = Ok p' /\
       PrimFloat.leb p p' = true).
Proof.
  intros Hc HT. rewrite progress_value_spec by lia. split.
  - rewrite py_min_one_ratio by done.
    destruct (Z.ltb_spec current target) as [Hlt|Hge].
    + split; [|lia]. intros [= E].
      pose proof (proj2 (ratio_lt_one current target Hc HT) Hlt) as H.
      rewrite E, ltb_irrefl in H. discriminate.
    + split; [lia|done].
  - intros later Hl. rewrite progress_value_spec by lia.
    do 2 eexists. split; [reflexivity|]. split; [reflexivity|].
    rewrite !py_min_one_ratio by (done || lia).
    destruct (Z.ltb_spec current target) as [Hlt|Hge],
             (Z.ltb_spec later target) as [Hlt'|Hge']; try lia.
    + apply ratio_mono; lia.
    + apply ltb_leb, ratio_lt_one; done.
    + reflexivity.
Qed.

Lemma progress_full_iff_target_reached_witness :
  (progress_value 999 1000 = Ok 1%float <-> 1000 <= 999) /\
  (forall later, 999 <= later < exact_bound ->
     exists p p',
       progress_value 999 1000 = Ok p /\
       progress_value later 1000 = Ok p' /\
       PrimFloat.leb p p' = true).
Proof.
  apply (progress_full_iff_target_reached 999 1000); unfold exact_bound; lia.
Defined.

(** ** Buttons, idle runs and the rerun loop *)

Lemma target_of_unclicked ui : target_of (unclicked ui) = target_of ui.
Proof. reflexivity. Qed.

Lemma rendered_unclicked ui ds : rendered (unclicked ui) ds = rendered ui ds.
Proof. reflexivity. Qed.

Lemma advance_advance a b g : advance a (advance b g) = advance (b + a) g.
Proof. unfold advance. cbn. by rewrite Nat.add_assoc. Qed.

Lemma advance_0 g : advance 0 g = g.
Proof. destruct g. unfold advance. cbn. by rewrite Nat.add_0_r. Qed.

(** X11. Only the two buttons change the running flag: after a run,
    whether it returned, asked for a rerun or raised, the flag is
    cleared if Reset was clicked, flipped if only Start/Stop was, and
    otherwise what it was.  In particular reaching the target does not
    clear it. *)
Theorem running_flag_follows_buttons (ui : widgets) (w : world) :
  is_running (snd (tick ui w)) =
  if reset_clicked ui then false
  else if start_stop_clicked ui then negb (is_running w)
  else is_running w.
Proof.
  rewrite tick_spec. unfold after_buttons, is_running.
  destruct (reset_clicked ui), (start_stop_clicked ui);
    repeat match goal with
           | |- context [if ?b then _ else _] => destruct b
           | |- context [match ?b with Ok _ => _ | Raise _ => _ end] => destruct b
           end; reflexivity.
Qed.

(** X12. With both session keys set, no button clicked, and the flag
    cleared or the target reached, a run returns without asking for a
    rerun, renders the page over the accumulated differences, and leaves
    the session state and the random source exactly as they were. *)
Theorem idle_run_changes_nothing (ui : widgets) (w : world)
    (ds : list float) (r : bool) :
  differences (session_state w) = Some ds ->
  running (session_state w) = Some r ->
  start_stop_clicked ui = false -> reset_clicked ui = false ->
  r = false \/ target_of ui <= Z.of_nat (length ds) ->
  tick ui w = (Ok false, World (session_state w) (random w) (rendered ui ds)).
Proof.
  intros Hd Hr Hs Hx Hidle. rewrite tick_spec. unfold after_buttons.
  rewrite Hd, Hr, Hs, Hx. cbn [default]. cbv beta iota zeta. unfold id.
  assert (E : r && (Z.of_nat (length ds) <? target_of ui) = false).
  { destruct Hidle as [-> | H]; [reflexivity|].
    apply andb_false_iff. right. apply Z.ltb_ge. exact H. }
  rewrite E. destruct w as [[d r'] g pg]. cbn in *. by subst.
Qed.

Lemma idle_run_changes_nothing_witness :
  tick ui_rerun (snd (tick ui_reset world_started)) =
  (Ok false,
   World (session_state (snd (tick ui_reset world_started)))
         (random (snd (tick ui_reset world_started)))
         (rendered ui_rerun [])).
Proof.
  apply (idle_run_changes_nothing ui_rerun
           (snd (tick ui_reset world_started)) [] false);
    [reflexivity..|left; reflexivity].
Defined.

Lemma after_buttons_unclicked ui ds r :
  after_buttons (unclicked ui) (Session (Some ds) (Some r)) = (ds, r).
Proof. reflexivity. Qed.

Lemma advance_step k g :
  advance (108 * k) (advance 108 g) = advance (108 * S k) g.
Proof. rewrite advance_advance. f_equal. lia. Qed.

(** The outcome of the runs one interaction sets off, by induction on
    the number of values still missing. *)
Lemma interact_spec n : forall ui w,
  let ds := (after_buttons ui (session_state w)).1 in
  (after_buttons ui (session_state w)).2 = true ->
  target_of ui - Z.of_nat (length ds) = Z.of_nat n ->
  exists outcome w' vs,
    interact (S (length vs)) ui w = Some (outcome, w') /\
    accumulated w' = ds ++ vs /\
    (forall i v, vs !! i = Some v ->
       statistic_of (advance (108 * i) (random w)) = Ok v) /\
    is_running w' = true /\
    page w' = rendered ui (accumulated w') /\
    ((outcome = Ok false /\
      Z.of_nat (length (accumulated w')) = target_of ui /\
      random w' = advance (108 * length vs) (random w)) \/
     (outcome = Raise ZeroDivisionError /\
      Z.of_nat (length (accumulated w')) < target_of ui /\
      statistic_of (advance (108 * length vs) (random w)) =
        Raise ZeroDivisionError /\
      random w' = advance (108 * S (length vs)) (random w))).
Proof.
  induction n as [|n IH]; intros ui w ds Hr Hn.
  - exists (Ok false),
      (World (Session (Some ds) (Some true)) (random w) (rendered ui ds)), [].
    cbn [length interact]. rewrite tick_spec. subst ds.
    destruct (after_buttons ui (session_state w)) as [ds r].
    cbn [fst snd] in *. subst r.
    assert (E : (Z.of_nat (length ds) <? target_of ui) = false)
      by (apply Z.ltb_ge; lia).
    rewrite E. cbn [andb]. split_and!; try done.
    + cbn. by rewrite app_nil_r.
    + left. split_and!; [done| |cbn; by rewrite advance_0].
      change (Z.of_nat (length ds) = target_of ui). lia.
  - assert (Hlt : (Z.of_nat (length ds) <? target_of ui) = true)
      by (apply Z.ltb_lt; lia).
    destruct (statistic_of (random w)) as [v|e] eqn:Hv.
    + set (w1 := World (Session (Some (ds ++ [v])) (Some true))
                       (advance 108 (random w)) (rendered ui ds)).
      destruct (IH (unclicked ui) w1) as (outcome & w' & vs & Hi & Ha & Hs & Hrun & Hp & Hout).
      { reflexivity. }
      { unfold w1. cbn [session_state]. rewrite after_buttons_unclicked.
        cbn [fst]. rewrite target_of_unclicked, length_app. cbn [length]. lia. }
      unfold w1 in Ha, Hout, Hs. cbn [session_state random] in Ha, Hout, Hs.
      rewrite after_buttons_unclicked in Ha. cbn [fst] in Ha.
      rewrite target_of_unclicked in Hout. rewrite rendered_unclicked in Hp.
      exists outcome, w', (v :: vs). split_and!.
      * cbn [length interact]. rewrite tick_spec. subst ds.
        destruct (after_buttons ui (session_state w)) as [ds r].
        cbn [fst snd] in *. subst r. rewrite Hlt, Hv. cbn [andb].
        exact Hi.
      * rewrite Ha, <- app_assoc. reflexivity.
      * intros [|i] u Hu.
        -- cbn in Hu. injection Hu as <-. cbn. by rewrite advance_0.
        -- cbn [lookup list_lookup] in Hu. rewrite <- advance_step.
           by apply Hs.
      * exact Hrun.
      * exact Hp.
      * cbn [length]. rewrite !advance_step in Hout. exact Hout.
    + assert (e = ZeroDivisionError) as ->.
      { destruct (statistic_of_cases (random w)) as [H|(v & H & _)];
          congruence. }
      exists (Raise ZeroDivisionError),
        (World (Session (Some ds) (Some true)) (advance 108 (random w))
               (rendered ui ds)), [].
      cbn [length interact]. rewrite tick_spec. subst ds.
      destruct (after_buttons ui (session_state w)) as [ds r].
      cbn [fst snd] in *. subst r. rewrite Hlt, Hv. cbn [andb].
      split_and!; try done.
      * cbn. by rewrite app_nil_r.
      * right. split_and!; [done| |cbn; by rewrite advance_0|reflexivity].
        change (Z.of_nat (length ds) < target_of ui). lia.
Qed.

(** X13. Once the flag is set and the count is at most the target, the
    reruns that [st.experimental_rerun()] chains come to an end: after
    one run per appended value and one more, either the count equals the
    target and the last run returned without a rerun, or the sampler
    raised on a batch with an empty group.  Each appended value is the
    statistic of its batch of 108 draws, in order; the flag is still
    set; and the page of the last run is rendered over everything
    accumulated. *)
Theorem run_loop_reaches_target (ui : widgets) (w : world) :
  let ds := (after_buttons ui (session_state w)).1 in
  (after_buttons ui (session_state w)).2 = true ->
  Z.of_nat (length ds) <= target_of ui ->
  exists outcome w' vs,
    interact (S (length vs)) ui w = Some (outcome, w') /\
    accumulated w' = ds ++ vs /\
    (forall i v, vs !! i = Some v ->
       statistic_of (advance (108 * i) (random w)) = Ok v) /\
    is_running w' = true /\
    page w' = rendered ui (accumulated w') /\
    ((outcome = Ok false /\
      Z.of_nat (length (accumulated w')) = target_of ui /\
      random w' = advance (108 * length vs) (random w)) \/
     (outcome = Raise ZeroDivisionError /\
      Z.of_nat (length (accumulated w')) < target_of ui /\
      statistic_of (advance (108 * length vs) (random w)) =
        Raise ZeroDivisionError /\
      random w' = advance (108 * S (length vs)) (random w))).
Proof.
  intros ds Hr Hlen.
  apply (interact_spec (Z.to_nat (target_of ui - Z.of_nat (length ds))));
    [exact Hr|]. fold ds. lia.
Qed.

Lemma run_loop_reaches_target_witness :
  let w := fresh (Rng mixed_tape 0) in
  exists outcome w' vs,
    interact (S (length vs)) ui_start w = Some (outcome, w') /\
    accumulated w' = [] ++ vs /\
    (forall i v, vs !! i = Some v ->
       statistic_of (advance (108 * i) (random w)) = Ok v) /\
    is_running w' = true /\
    page w' = rendered ui_start (accumulated w') /\
    ((outcome = Ok false /\
      Z.of_nat (length (accumulated w')) = target_of ui_start /\
      random w' = advance (108 * length vs) (random w)) \/
     (outcome = Raise ZeroDivisionError /\
      Z.of_nat (length (accumulated w')) < target_of ui_start /\
      statistic_of (advance (108 * length vs) (random w)) =
        Raise ZeroDivisionError /\
      random w' = advance (108 * S (length vs)) (random w))).
Proof.
  apply (run_loop_reaches_target ui_start (fresh (Rng mixed_tape 0)));
    [reflexivity|vm_compute; discriminate].
Defined.

(** X14. Every value a session accumulates is a statistic: a finite
    float in [-1, 1]. *)
Theorem accumulated_statistics_in_range (w : world) :
  reachable w ->
  Forall (fun d => PrimFloat.leb (-1)%float d = true /\
                   PrimFloat.leb d 1%float = true /\
                   PrimFloat.is_finite d = true)
         (accumulated w).
Proof.
  induction 1 as [g|ui w Hw IH]; [constructor|].
  pose proof (tick_accumulated ui w) as [_ H]. cbv zeta in H.
  pose proof (after_buttons_cases ui (session_state w)) as Hb.
  destruct (after_buttons ui (session_state w)) as [ds r]. cbn [fst snd] in H.
  assert (Hds : Forall (fun d => PrimFloat.leb (-1)%float d = true /\
                                 PrimFloat.leb d 1%float = true /\
                                 PrimFloat.is_finite d = true) ds).
  { destruct Hb as [-> | ->]; [constructor|done]. }
  destruct H as [-> | (v & -> & _ & _ & Hv)]; [done|].
  apply Forall_app. split; [done|]. constructor; [|constructor].
  destruct (statistic_of_cases (random w)) as [E|(v' & E & Hr)];
    [congruence|].
  assert (v' = v) as -> by congruence.
  cbn in Hr. rewrite !andb_true_iff in Hr. tauto.
Qed.

Lemma accumulated_statistics_in_range_witness :
  Forall (fun d => PrimFloat.leb (-1)%float d = true /\
                   PrimFloat.leb d 1%float = true /\
                   PrimFloat.is_finite d = true)
         (accumulated (snd (tick ui_rerun world_started))).
Proof.
  apply (accumulated_statistics_in_range (snd (tick ui_rerun world_started))).
  apply reachable_tick. apply (reachable_tick ui_start). apply reachable_fresh.
Defined.

(** X15. A run leaves both session keys set, whatever was there
    before, and raises nothing but the sampler's [ZeroDivisionError];
    unless Reset was clicked it discards none of the accumulated values
    (they are a prefix of what the run leaves), and with Reset it leaves
    none. *)
Theorem run_keeps_session_sound (ui : widgets) (w : world) :
  let w' := snd (tick ui w) in
  (exists ds r, session_state w' = Session (Some ds) (Some r)) /\
  (forall e, fst (tick ui w) = Raise e -> e = ZeroDivisionError) /\
  (reset_clicked ui = false -> accumulated w `prefix_of` accumulated w') /\
  (reset_clicked ui = true -> accumulated w' = []).
Proof.
  intros w'. subst w'. rewrite tick_spec.
  pose proof (statistic_of_cases (random w)) as Hs.
  unfold after_buttons, accumulated.
  destruct (reset_clicked ui).
  - cbn. split_and!; [by do 2 eexists|congruence|done|done].
  - set (ds := default [] (differences (session_state w))).
    set (r := if start_stop_clicked ui then _ else _).
    destruct (r && _).
    + destruct Hs as [-> | (v & -> & _)]; cbn [fst snd session_state differences default from_option id].
      * split_and!; [by do 2 eexists|congruence|done|done].
      * split_and!; [by do 2 eexists|congruence| |done].
        intros _. by apply prefix_app_r.
    + cbn [fst snd session_state differences default from_option id].
      split_and!; [by do 2 eexists|congruence|done|done].
Qed.

(** ** The shaded region of the histogram *)

Lemma SFleb_tail so sd :
  SFleb (S754_zero false) so = true -> sd <> S754_nan ->
  SFleb so sd || SFleb sd (SFopp so) = SFleb (SFabs so) (SFabs sd).
Proof.
  intros Ho Hd.
  destruct so as [[]|[]| |[] mo eo]; try discriminate;
    destruct sd as [[]|[]| |[] md ed]; try done.
  - unfold SFleb. cbn [SFabs SFopp negb].
    change (SFcompare (S754_finite false mo eo) (S754_finite true md ed))
      with (Some Gt).
    cbn [orb].
    change (S754_finite true md ed) with (SFopp (S754_finite false md ed)).
    change (S754_finite true mo eo) with (SFopp (S754_finite false mo eo)).
    rewrite SFcompare_opp. reflexivity.
  - unfold SFleb. cbn [SFabs SFopp negb].
    change (SFcompare (S754_finite false md ed) (S754_finite true mo eo))
      with (Some Gt).
    by rewrite orb_false_r.
Qed.

(** X16. For a non-negative [observed_diff] the two rectangles shade a
    position [d] of [-1, 1] exactly when [abs(d) >= abs(observed_diff)]:
    the shaded region of the histogram is the tail the estimate counts.
    Without [show_p_value_area] nothing is shaded. *)
Theorem shaded_region_is_tail (differences : list float)
    (observed_diff d : float) :
  PrimFloat.leb 0%float observed_diff = true ->
  PrimFloat.leb (-1)%float d = true -> PrimFloat.leb d 1%float = true ->
  shaded (create_histogram_figure differences observed_diff true) d =
    py_ge (PrimFloat.abs d) (PrimFloat.abs observed_diff) /\
  shaded (create_histogram_figure differences observed_diff false) d = false.
Proof.
  intros Ho Hl Hu. split; [|reflexivity].
  unfold shaded, create_histogram_figure, in_rect, py_ge.
  cbn [vrects existsb fst snd].
  change (PrimFloat.opp 1%float) with (-1)%float.
  rewrite Hl, Hu, andb_true_r, andb_true_l, orb_false_r.
  apply leb_not_nan_l, is_nan_spec in Hu.
  rewrite FloatAxioms.leb_spec in Ho.
  rewrite !FloatAxioms.leb_spec, !FloatAxioms.abs_spec, FloatAxioms.opp_spec.
  by apply SFleb_tail.
Qed.

Lemma shaded_region_is_tail_witness :
  shaded (create_histogram_figure [0.5; 0; -0.25]%float observed true)
         (-0.25)%float =
    py_ge (PrimFloat.abs (-0.25)%float) (PrimFloat.abs observed) /\
  shaded (create_histogram_figure [0.5; 0; -0.25]%float observed false)
         (-0.25)%float = false.
Proof.
  apply (shaded_region_is_tail [0.5; 0; -0.25]%float observed (-0.25)%float);
    reflexivity.
Defined.

(** ** Worked examples *)

(** The closed form of the quotient against the kernel's own division. *)
Example quotient_two_thirds :
  Prim2SF (ratio 2 3) =
  quotient (mantissa 2) (exponent 2) (mantissa 3) (exponent 3).
Proof. vm_compute. reflexivity. Qed.

Example quotient_of_large_counts :
  Prim2SF (ratio 9007199254740991 4503599627370497) =
  quotient (mantissa 9007199254740991) (exponent 9007199254740991)
           (mantissa 4503599627370497) (exponent 4503599627370497).
Proof. vm_compute. reflexivity. Qed.

Example generate_sample_mixed :
  fst (generate_sample (fresh (Rng mixed_tape 0))) = Ok 0.5%float.
Proof. vm_compute. reflexivity. Qed.

Example generate_sample_all_male :
  fst (generate_sample (fresh (Rng all_male_tape 0))) =
  Raise ZeroDivisionError.
Proof. vm_compute. reflexivity. Qed.

Example p_value_two_of_three :
  match p_value [0.5; 0; -0.25]%float observed 3 with
  | Ok p => format_4f p
  | Raise _ => EmptyString
  end = "0.6667"%string.
Proof. vm_compute. reflexivity. Qed.

Example p_value_of_nothing :
  p_value [] observed 0 = Raise ZeroDivisionError.
Proof. reflexivity. Qed.

(** A NaN among the values is at least as extreme as nothing, not even as
    an observed 0: the estimate over statistics relies on the sampler
    never returning one. *)
Example p_value_of_nan :
  p_value [PrimFloat.nan] 0%float 1 = Ok 0%float.
Proof. vm_compute. reflexivity. Qed.

Example progress_beyond_target : progress_value 5000 100 = Ok 1%float.
Proof. vm_compute. reflexivity. Qed.

Example page_after_one_sample :
  page (snd (tick ui_rerun world_started)) =
  [Progress (ratio 1 1000); Metric "Samples" "1 / 1000";
   Metric "P-value" "1.0000";
   PlotlyChart (create_histogram_figure [0.5%float] observed true)].
Proof. vm_compute. reflexivity. Qed.

Example session_after_two_ticks :
  session_state (snd (tick ui_rerun world_started)) =
  Session (Some [0.5; 0.5]%float) (Some true).
Proof. vm_compute. reflexivity. Qed.

(** With a negative [observed_diff] the rectangles cover all of [-1, 1],
    whatever the estimate counts. *)
Example shaded_negative_observed :
  shaded (create_histogram_figure [] (-0.5)%float true) 0%float = true /\
  py_ge (PrimFloat.abs 0%float) (PrimFloat.abs (-0.5)%float) = false.
Proof. split; reflexivity. Qed.
